(** * The aria2 multi-task downloader: task lifecycle, parsers, command builder

    A shallow embedding of [gui_downloader_tkinter.py]: the size-token
    parser [human_to_bytes], the two regular expressions it and the
    progress parser rest on, [DownloadTask] with its lifecycle methods and
    background reader, and the task list of [Aria2DownloaderApp].

    Conventions of the embedding.
    - Python [str] is [string]; the text is ASCII (code points below 128),
      which is what aria2c prints.  Character classes, [strip], [lower] and
      [upper] are given on ASCII.
    - A [dict] is a [gmap string pyval].
    - Exceptions are values of [exn]; code that may raise runs in the
      monad [M], which threads the task and the operating-system world.
    - A [float] is a non-negative binary64 value, kept exactly as
      [m * 2^e]; decimal text is rounded to nearest, ties to even. *)

From Stdlib Require Import ZArith String Ascii List Bool Lia DecimalString.
From stdpp Require Import base gmap strings list.

Local Open Scope Z_scope.
Local Open Scope list_scope.

(** ** Characters and Python string helpers *)

Definition code (c : ascii) : Z := Z.of_N (N_of_ascii c).

Definition chr (n : Z) : ascii := ascii_of_N (Z.to_N n).

Definition in_range (lo hi c : ascii) : bool :=
  (code lo <=? code c) && (code c <=? code hi).

Definition is_digit (c : ascii) : bool := in_range "0" "9" c.

Definition is_lower (c : ascii) : bool := in_range "a" "z" c.

Definition is_upper (c : ascii) : bool := in_range "A" "Z" c.

(** [str.isspace] on ASCII: tab, newline, vertical tab, form feed, carriage
    return, the four separators 28..31 and the blank.  The same set is
    [\s] of [re] on [str] patterns and what [strip] removes. *)
Definition is_space (c : ascii) : bool :=
  ((9 <=? code c) && (code c <=? 13)) || ((28 <=? code c) && (code c <=? 32)).

(** [\w] on ASCII. *)
Definition is_word (c : ascii) : bool :=
  is_digit c || is_lower c || is_upper c || (code c =? 95).

Definition lower_char (c : ascii) : ascii :=
  if is_upper c then chr (code c + 32) else c.

Definition upper_char (c : ascii) : ascii :=
  if is_lower c then chr (code c - 32) else c.

Definition chars (s : string) : list ascii := list_ascii_of_string s.

Definition str (l : list ascii) : string := string_of_list_ascii l.

Definition lower (s : string) : string := str (map lower_char (chars s)).

Definition upper (s : string) : string := str (map upper_char (chars s)).

Definition char_in (c : ascii) (s : string) : bool :=
  existsb (Ascii.eqb c) (chars s).

Fixpoint lstrip_chars (p : ascii -> bool) (l : list ascii) : list ascii :=
  match l with
  | c :: l' => if p c then lstrip_chars p l' else l
  | [] => []
  end.

Definition rstrip_chars (p : ascii -> bool) (l : list ascii) : list ascii :=
  rev (lstrip_chars p (rev l)).

(** [s.strip()] *)
Definition strip (s : string) : string :=
  str (rstrip_chars is_space (lstrip_chars is_space (chars s))).

(** [s.rstrip('\n')] *)
Definition rstrip_nl (s : string) : string :=
  str (rstrip_chars (Ascii.eqb (chr 10)) (chars s)).

Fixpoint is_prefix (p l : list ascii) : bool :=
  match p, l with
  | [], _ => true
  | a :: p', b :: l' => Ascii.eqb a b && is_prefix p' l'
  | _ :: _, [] => false
  end.

Fixpoint contains_chars (p l : list ascii) : bool :=
  is_prefix p l ||
  match l with
  | [] => false
  | _ :: l' => contains_chars p l'
  end.

(** [sub in s] *)
Definition contains (sub s : string) : bool :=
  contains_chars (chars sub) (chars s).

(** [sep.join(parts)] *)
Fixpoint join (sep : string) (parts : list string) : string :=
  match parts with
  | [] => EmptyString
  | [p] => p
  | p :: rest => p +:+ sep +:+ join sep rest
  end.

(** ** Exceptions and results *)

Inductive exn :=
| ValueError (msg : string)
| OverflowError (msg : string)
| AttributeError (msg : string)
| IndexError (msg : string)
| OSError (msg : string).

(** [str(e)] *)
Definition exn_msg (e : exn) : string :=
  match e with
  | ValueError m | OverflowError m | AttributeError m
  | IndexError m | OSError m => m
  end.

Inductive res (A : Type) :=
| Ret (a : A)
| Raise (e : exn).
Arguments Ret {A} a.
Arguments Raise {A} e.

(** ** A backtracking matcher for the [re] patterns of the module

    Every repetition in [PROGRESS_RE] and [UNIT_RE] is over a character
    class, so [Star] and [Plus] take a class.  Alternatives are explored in
    [re]'s order: a greedy repetition takes as many characters as it can
    and gives them back one at a time, an optional part is tried before it
    is skipped, and the first success is the match. *)

Inductive citem :=
| CRange (lo hi : ascii)
| CChar (c : ascii)
| CSpace
| CWord.

Record cclass := { negated : bool; items : list citem }.

Inductive regex :=
| Eps
| Lit (c : ascii)
| Cls (k : cclass)
| Star (k : cclass)
| Plus (k : cclass)
| Opt (r : regex)
| Seq (r1 r2 : regex)
| Group (n : nat) (r : regex).

Definition item_match (c : ascii) (i : citem) : bool :=
  match i with
  | CRange lo hi => in_range lo hi c
  | CChar x => Ascii.eqb x c
  | CSpace => is_space c
  | CWord => is_word c
  end.

(** Membership in a class under [re.I]: the character or one of its case
    variants is in the set. *)
Definition in_class (k : cclass) (c : ascii) : bool :=
  xorb (negated k)
       (existsb (item_match c) (items k)
        || existsb (item_match (lower_char c)) (items k)
        || existsb (item_match (upper_char c)) (items k)).

Definition lit_match (x c : ascii) : bool :=
  Ascii.eqb (lower_char x) (lower_char c).

Definition captures := list (nat * list ascii).

Fixpoint group_chars (cs : captures) (n : nat) : option (list ascii) :=
  match cs with
  | [] => None
  | (k, v) :: cs' => if Nat.eqb k n then Some v else group_chars cs' n
  end.

(** [m.group(n)], [None] when the group took no part in the match. *)
Definition group (cs : captures) (n : nat) : option string :=
  option_map str (group_chars cs n).

Section Matcher.
Context {R : Type}.

Fixpoint star_from (p : ascii -> bool) (s : list ascii)
    (k : list ascii -> option R) : option R :=
  match s with
  | c :: s' =>
      if p c then
        match star_from p s' k with
        | Some r => Some r
        | None => k s
        end
      else k s
  | [] => k s
  end.

Fixpoint match_from (r : regex) (s : list ascii) (cs : captures)
    (k : list ascii -> captures -> option R) : option R :=
  match r with
  | Eps => k s cs
  | Lit x =>
      match s with
      | c :: s' => if lit_match x c then k s' cs else None
      | [] => None
      end
  | Cls cl =>
      match s with
      | c :: s' => if in_class cl c then k s' cs else None
      | [] => None
      end
  | Star cl => star_from (in_class cl) s (fun s' => k s' cs)
  | Plus cl =>
      match s with
      | c :: s' =>
          if in_class cl c then star_from (in_class cl) s' (fun s'' => k s'' cs)
          else None
      | [] => None
      end
  | Opt r1 =>
      match match_from r1 s cs k with
      | Some x => Some x
      | None => k s cs
      end
  | Seq r1 r2 => match_from r1 s cs (fun s' cs' => match_from r2 s' cs' k)
  | Group n r1 =>
      match_from r1 s cs
        (fun s' cs' => k s' ((n, take (length s - length s') s) :: cs'))
  end.
End Matcher.

(** [pattern.search(s)]: the match at the leftmost position that has one. *)
Fixpoint search_chars (r : regex) (s : list ascii) : option captures :=
  match match_from r s [] (fun _ cs => Some cs) with
  | Some cs => Some cs
  | None =>
      match s with
      | [] => None
      | _ :: s' => search_chars r s'
      end
  end.

Definition search (r : regex) (s : string) : option captures :=
  search_chars r (chars s).

Definition seqs (rs : list regex) : regex := fold_right Seq Eps rs.

Definition set_of (l : list citem) : cclass := {| negated := false; items := l |}.

Definition none_of (l : list citem) : cclass := {| negated := true; items := l |}.

(** [[0-9]], [[0-9\.]], [[0-9\.\w]], [[0-9a-f]], [\s], [[^\]]], [[KMGT]] *)
Definition c_digit : cclass := set_of [CRange "0" "9"].
Definition c_num : cclass := set_of [CRange "0" "9"; CChar "."].
Definition c_numw : cclass := set_of [CRange "0" "9"; CChar "."; CWord].
Definition c_hex : cclass := set_of [CRange "0" "9"; CRange "a" "f"].
Definition c_space : cclass := set_of [CSpace].
Definition c_not_rbracket : cclass := none_of [CChar "]"].
Definition c_kmgt : cclass := set_of [CChar "K"; CChar "M"; CChar "G"; CChar "T"].

(** [PROGRESS_RE], compiled with [re.I]:
    [\[#([0-9a-f]+)\s+([0-9\.\w]+)\/([0-9\.\w]+)\(([0-9]+)%\)\s+CN:([0-9]+)\s+DL:([0-9\.\w]+)\s+ETA:([^\]]+)\]] *)
Definition PROGRESS_RE : regex :=
  seqs [ Lit "["; Lit "#"; Group 1 (Plus c_hex); Plus c_space;
         Group 2 (Plus c_numw); Lit "/"; Group 3 (Plus c_numw);
         Lit "("; Group 4 (Plus c_digit); Lit "%"; Lit ")"; Plus c_space;
         Lit "C"; Lit "N"; Lit ":"; Group 5 (Plus c_digit); Plus c_space;
         Lit "D"; Lit "L"; Lit ":"; Group 6 (Plus c_numw); Plus c_space;
         Lit "E"; Lit "T"; Lit "A"; Lit ":"; Group 7 (Plus c_not_rbracket);
         Lit "]" ].

(** [UNIT_RE], compiled with [re.I]: [([0-9\.]+)\s*([KMGT]?i?B)?] *)
Definition UNIT_RE : regex :=
  seqs [ Group 1 (Plus c_num); Star c_space;
         Opt (Group 2 (seqs [Opt (Cls c_kmgt); Opt (Lit "i"); Lit "B"])) ].

(** ** Numbers: [int(str)], [float(str)] and binary64 *)

Definition digit_val (c : ascii) : Z := code c - 48.

Definition digits_value (l : list ascii) : Z :=
  fold_left (fun acc c => acc * 10 + digit_val c) l 0.

(** The digits of an [int] literal: single underscores may separate them. *)
Fixpoint int_digits (acc : Z) (after_digit : bool) (l : list ascii) : option Z :=
  match l with
  | [] => if after_digit then Some acc else None
  | c :: l' =>
      if is_digit c then int_digits (acc * 10 + digit_val c) true l'
      else if Ascii.eqb c "_" && after_digit then int_digits acc false l'
      else None
  end.

Definition repr (s : string) : string := "'" +:+ s +:+ "'".

(** [int(s)] for a string: surrounding white space, a sign, decimal digits. *)
Definition int_of_str (s : string) : res Z :=
  let body := rstrip_chars is_space (lstrip_chars is_space (chars s)) in
  let parsed :=
    match body with
    | "-"%char :: ds => option_map Z.opp (int_digits 0 false ds)
    | "+"%char :: ds => int_digits 0 false ds
    | ds => int_digits 0 false ds
    end in
  match parsed with
  | Some n => Ret n
  | None => Raise (ValueError ("invalid literal for int() with base 10: " +:+ repr s))
  end.

(** A non-negative binary64 value: [Fin m e] is [m * 2^e], [Inf] is
    infinity. *)
Inductive pyfloat :=
| Fin (m e : Z)
| Inf.

(** floor (log2 (n / d)) for positive [n] and [d] *)
Definition floor_log2_quot (n d : Z) : Z :=
  let l := Z.log2 n - Z.log2 d in
  let reached := if 0 <=? l then d * 2 ^ l <=? n else d <=? n * 2 ^ (- l) in
  if reached then l else l - 1.

(** [n / d] rounded to the nearest integer, ties to the even one *)
Definition round_half_even (n d : Z) : Z :=
  let q := n / d in
  let r := n mod d in
  if 2 * r <? d then q
  else if d <? 2 * r then q + 1
  else if Z.even q then q else q + 1.

Definition overflows (m e : Z) : bool := (0 <=? e) && (2 ^ 1024 <=? m * 2 ^ e).

(** The binary64 nearest to [n / d] ([0 <= n], [0 < d]): 53 significant
    bits, exponent of the last place no smaller than -1074, infinity from
    [2^1024] on. *)
Definition round_double (n d : Z) : pyfloat :=
  if n =? 0 then Fin 0 0
  else
    let e := floor_log2_quot n d in
    let u := Z.max (e - 52) (- 1074) in
    let m := if 0 <=? u then round_half_even n (d * 2 ^ u)
             else round_half_even (n * 2 ^ (- u)) d in
    if overflows m u then Inf else Fin m u.

Fixpoint span_digits (l : list ascii) : list ascii * list ascii :=
  match l with
  | c :: l' =>
      if is_digit c then let (a, b) := span_digits l' in (c :: a, b)
      else ([], l)
  | [] => ([], [])
  end.

(** The integer and the fractional digits of a token of digits and dots;
    [None] when it has two dots or no digit. *)
Definition parse_decimal (t : list ascii) : option (list ascii * list ascii) :=
  let (ip, rest) := span_digits t in
  match rest with
  | [] => match ip with [] => None | _ => Some (ip, []) end
  | c :: fp =>
      if Ascii.eqb c "." && forallb is_digit fp
         && negb (Nat.eqb (length (ip ++ fp)) 0)
      then Some (ip, fp) else None
  end.

(** [float(s)] on the texts group 1 of [UNIT_RE] can hold (digits and
    dots): the correctly rounded binary64, or [ValueError]. *)
Definition float_of_str (s : string) : res pyfloat :=
  match parse_decimal (chars s) with
  | Some (ip, fp) =>
      Ret (round_double (digits_value (ip ++ fp)) (10 ^ Z.of_nat (length fp)))
  | None => Raise (ValueError ("could not convert string to float: " +:+ repr s))
  end.

(** [x * 1024**k]: the factor is the power of two [2^j], so the product is
    exact unless it overflows. *)
Definition float_mul_pow2 (x : pyfloat) (j : Z) : pyfloat :=
  match x with
  | Fin m e => if overflows m (e + j) then Inf else Fin m (e + j)
  | Inf => Inf
  end.

(** [int(x)]: truncation; infinity raises. *)
Definition int_of_float (x : pyfloat) : res Z :=
  match x with
  | Fin m e => Ret (if 0 <=? e then m * 2 ^ e else m / 2 ^ (- e))
  | Inf => Raise (OverflowError "cannot convert float infinity to integer")
  end.

(** ** [human_to_bytes] *)

Definition bind_res {A B} (x : res A) (f : A -> res B) : res B :=
  match x with
  | Ret a => f a
  | Raise e => Raise e
  end.

Definition human_to_bytes (s : string) : res Z :=
  if String.eqb s "" then Ret 0
  else
    match search UNIT_RE s with
    | None =>
        match int_of_str s with
        | Ret n => Ret n
        | Raise _ => Ret 0
        end
    | Some m =>
        bind_res (float_of_str (default "" (group m 1))) (fun val =>
        let unit := upper (default "" (group m 2)) in
        if char_in "K" unit then int_of_float (float_mul_pow2 val 10)
        else if char_in "M" unit then int_of_float (float_mul_pow2 val 20)
        else if char_in "G" unit then int_of_float (float_mul_pow2 val 30)
        else if char_in "T" unit then int_of_float (float_mul_pow2 val 40)
        else int_of_float val)
    end.

(** ** Python values held by the options dictionary *)

Inductive pyval :=
| VBool (b : bool)
| VInt (n : Z)
| VStr (s : string).

(** [str(n)] for an [int] *)
Definition str_of_int (n : Z) : string := NilZero.string_of_int (Z.to_int n).

(** [bool(v)] *)
Definition truthy (v : pyval) : bool :=
  match v with
  | VBool b => b
  | VInt n => negb (n =? 0)
  | VStr s => negb (String.eqb s "")
  end.

(** [f'{v}'] *)
Definition format (v : pyval) : string :=
  match v with
  | VBool true => "True"
  | VBool false => "False"
  | VInt n => str_of_int n
  | VStr s => s
  end.

(** [int(v)] *)
Definition int_of (v : pyval) : res Z :=
  match v with
  | VBool b => Ret (if b then 1 else 0)
  | VInt n => Ret n
  | VStr s => int_of_str s
  end.

Definition type_name (v : pyval) : string :=
  match v with
  | VBool _ => "bool"
  | VInt _ => "int"
  | VStr _ => "str"
  end.

Definition no_attribute (v : pyval) (attr : string) : exn :=
  AttributeError ("'" +:+ type_name v +:+ "' object has no attribute '" +:+ attr +:+ "'").

(** [str.splitlines] on ASCII: the line boundaries are LF, CR, CR LF, VT,
    FF and the separators 28, 29 and 30. *)
Definition is_linebreak (c : ascii) : bool :=
  ((10 <=? code c) && (code c <=? 13)) || ((28 <=? code c) && (code c <=? 30)).

Fixpoint splitlines_chars (cur : list ascii) (l : list ascii) : list string :=
  match l with
  | [] => match cur with [] => [] | _ => [str (rev cur)] end
  | c :: l' =>
      if is_linebreak c then
        str (rev cur) ::
        match l' with
        | d :: l'' =>
            if (code c =? 13) && (code d =? 10) then splitlines_chars [] l''
            else splitlines_chars [] l'
        | [] => []
        end
      else splitlines_chars (c :: cur) l'
  end.

Definition splitlines (s : string) : list string := splitlines_chars [] (chars s).

(** [s.split()]: the maximal runs of characters that are not white space *)
Fixpoint split_chars (cur : list ascii) (l : list ascii) : list string :=
  match l with
  | [] => match cur with [] => [] | _ => [str (rev cur)] end
  | c :: l' =>
      if is_space c then
        match cur with
        | [] => split_chars [] l'
        | _ => str (rev cur) :: split_chars [] l'
        end
      else split_chars (c :: cur) l'
  end.

Definition split_ws (s : string) : list string := split_chars [] (chars s).

(** ** The operating-system world

    What the module reaches through [subprocess], [os] and [time]: the
    children spawned so far (a [Popen] handle is the position of its child
    in [procs]), the directories, the wall clock as [strftime] prints it,
    and what the next [Popen], [terminate] or [makedirs] call raises, if
    anything. *)

Record proc := {
  argv : list string;
  returncode : option Z;      (* [None] while the child runs *)
  signalled : bool            (* [terminate] was sent *)
}.

Record World := {
  procs : list proc;
  dirs : list string;
  clock : string;
  popen_error : option exn;
  terminate_error : option exn;
  makedirs_error : option exn
}.

Definition set_procs (ps : list proc) (w : World) : World :=
  {| procs := ps; dirs := dirs w; clock := clock w;
     popen_error := popen_error w; terminate_error := terminate_error w;
     makedirs_error := makedirs_error w |}.

Definition set_dirs (ds : list string) (w : World) : World :=
  {| procs := procs w; dirs := ds; clock := clock w;
     popen_error := popen_error w; terminate_error := terminate_error w;
     makedirs_error := makedirs_error w |}.

(** The number of child processes spawned so far. *)
Definition spawns (w : World) : nat := length (procs w).

(** ** [DownloadTask] *)

Record DownloadTask := {
  url : string;
  out_dir : string;
  out_name : string;
  options : gmap string pyval;
  process : option nat;
  gid : option string;
  progress : Z;
  have_bytes : Z;
  total_bytes : Z;
  dl_speed : string;
  eta : string;
  connections : Z;
  status : string;
  log_lines : list string;
  stdout_thread : option nat;
  _stop_flag : bool
}.

(** [DownloadTask.__init__]; [cwd] is [os.getcwd()]. *)
Definition new_task (url0 out_dir0 out_name0 : string)
    (options0 : gmap string pyval) (cwd : string) : DownloadTask :=
  {| url := strip url0;
     out_dir := if String.eqb out_dir0 "" then cwd else out_dir0;
     out_name := out_name0;
     options := options0;
     process := None; gid := None; progress := 0;
     have_bytes := 0; total_bytes := 0; dl_speed := ""; eta := "";
     connections := 0; status := "Waiting..."; log_lines := [];
     stdout_thread := None; _stop_flag := false |}.

Definition set_options (o : gmap string pyval) (t : DownloadTask) : DownloadTask :=
  {| url := url t; out_dir := out_dir t; out_name := out_name t; options := o;
     process := process t; gid := gid t; progress := progress t;
     have_bytes := have_bytes t; total_bytes := total_bytes t;
     dl_speed := dl_speed t; eta := eta t; connections := connections t;
     status := status t; log_lines := log_lines t;
     stdout_thread := stdout_thread t; _stop_flag := _stop_flag t |}.

Definition set_process (p : option nat) (t : DownloadTask) : DownloadTask :=
  {| url := url t; out_dir := out_dir t; out_name := out_name t;
     options := options t;
     process := p; gid := gid t; progress := progress t;
     have_bytes := have_bytes t; total_bytes := total_bytes t;
     dl_speed := dl_speed t; eta := eta t; connections := connections t;
     status := status t; log_lines := log_lines t;
     stdout_thread := stdout_thread t; _stop_flag := _stop_flag t |}.

Definition set_status (s : string) (t : DownloadTask) : DownloadTask :=
  {| url := url t; out_dir := out_dir t; out_name := out_name t;
     options := options t;
     process := process t; gid := gid t; progress := progress t;
     have_bytes := have_bytes t; total_bytes := total_bytes t;
     dl_speed := dl_speed t; eta := eta t; connections := connections t;
     status := s; log_lines := log_lines t;
     stdout_thread := stdout_thread t; _stop_flag := _stop_flag t |}.

Definition set_log_lines (l : list string) (t : DownloadTask) : DownloadTask :=
  {| url := url t; out_dir := out_dir t; out_name := out_name t;
     options := options t;
     process := process t; gid := gid t; progress := progress t;
     have_bytes := have_bytes t; total_bytes := total_bytes t;
     dl_speed := dl_speed t; eta := eta t; connections := connections t;
     status := status t; log_lines := l;
     stdout_thread := stdout_thread t; _stop_flag := _stop_flag t |}.

Definition set_stdout_thread (h : option nat) (t : DownloadTask) : DownloadTask :=
  {| url := url t; out_dir := out_dir t; out_name := out_name t;
     options := options t;
     process := process t; gid := gid t; progress := progress t;
     have_bytes := have_bytes t; total_bytes := total_bytes t;
     dl_speed := dl_speed t; eta := eta t; connections := connections t;
     status := status t; log_lines := log_lines t;
     stdout_thread := h; _stop_flag := _stop_flag t |}.

Definition set_stop_flag (b : bool) (t : DownloadTask) : DownloadTask :=
  {| url := url t; out_dir := out_dir t; out_name := out_name t;
     options := options t;
     process := process t; gid := gid t; progress := progress t;
     have_bytes := have_bytes t; total_bytes := total_bytes t;
     dl_speed := dl_speed t; eta := eta t; connections := connections t;
     status := status t; log_lines := log_lines t;
     stdout_thread := stdout_thread t; _stop_flag := b |}.

Definition set_gid (g : option string) (t : DownloadTask) : DownloadTask :=
  {| url := url t; out_dir := out_dir t; out_name := out_name t;
     options := options t;
     process := process t; gid := g; progress := progress t;
     have_bytes := have_bytes t; total_bytes := total_bytes t;
     dl_speed := dl_speed t; eta := eta t; connections := connections t;
     status := status t; log_lines := log_lines t;
     stdout_thread := stdout_thread t; _stop_flag := _stop_flag t |}.

Definition set_progress (n : Z) (t : DownloadTask) : DownloadTask :=
  {| url := url t; out_dir := out_dir t; out_name := out_name t;
     options := options t;
     process := process t; gid := gid t; progress := n;
     have_bytes := have_bytes t; total_bytes := total_bytes t;
     dl_speed := dl_speed t; eta := eta t; connections := connections t;
     status := status t; log_lines := log_lines t;
     stdout_thread := stdout_thread t; _stop_flag := _stop_flag t |}.

Definition set_have_bytes (n : Z) (t : DownloadTask) : DownloadTask :=
  {| url := url t; out_dir := out_dir t; out_name := out_name t;
     options := options t;
     process := process t; gid := gid t; progress := progress t;
     have_bytes := n; total_bytes := total_bytes t;
     dl_speed := dl_speed t; eta := eta t; connections := connections t;
     status := status t; log_lines := log_lines t;
     stdout_thread := stdout_thread t; _stop_flag := _stop_flag t |}.

Definition set_total_bytes (n : Z) (t : DownloadTask) : DownloadTask :=
  {| url := url t; out_dir := out_dir t; out_name := out_name t;
     options := options t;
     process := process t; gid := gid t; progress := progress t;
     have_bytes := have_bytes t; total_bytes := n;
     dl_speed := dl_speed t; eta := eta t; connections := connections t;
     status := status t; log_lines := log_lines t;
     stdout_thread := stdout_thread t; _stop_flag := _stop_flag t |}.

Definition set_dl_speed (v : string) (t : DownloadTask) : DownloadTask :=
  {| url := url t; out_dir := out_dir t; out_name := out_name t;
     options := options t;
     process := process t; gid := gid t; progress := progress t;
     have_bytes := have_bytes t; total_bytes := total_bytes t;
     dl_speed := v; eta := eta t; connections := connections t;
     status := status t; log_lines := log_lines t;
     stdout_thread := stdout_thread t; _stop_flag := _stop_flag t |}.

Definition set_eta (v : string) (t : DownloadTask) : DownloadTask :=
  {| url := url t; out_dir := out_dir t; out_name := out_name t;
     options := options t;
     process := process t; gid := gid t; progress := progress t;
     have_bytes := have_bytes t; total_bytes := total_bytes t;
     dl_speed := dl_speed t; eta := v; connections := connections t;
     status := status t; log_lines := log_lines t;
     stdout_thread := stdout_thread t; _stop_flag := _stop_flag t |}.

Definition set_connections (n : Z) (t : DownloadTask) : DownloadTask :=
  {| url := url t; out_dir := out_dir t; out_name := out_name t;
     options := options t;
     process := process t; gid := gid t; progress := progress t;
     have_bytes := have_bytes t; total_bytes := total_bytes t;
     dl_speed := dl_speed t; eta := eta t; connections := n;
     status := status t; log_lines := log_lines t;
     stdout_thread := stdout_thread t; _stop_flag := _stop_flag t |}.

(** ** The monad of the task's methods: the task and the world as state,
    exceptions as results.  A raise keeps the state reached so far. *)

Record St := { self : DownloadTask; os : World }.

Definition M (A : Type) : Type := St -> res A * St.

Definition ret {A} (a : A) : M A := fun st => (Ret a, st).

Definition raise {A} (e : exn) : M A := fun st => (Raise e, st).

Definition bind {A B} (m : M A) (f : A -> M B) : M B :=
  fun st =>
    match m st with
    | (Ret a, st') => f a st'
    | (Raise e, st') => (Raise e, st')
    end.

Notation "'let*' x ':=' m 'in' k" := (bind m (fun x => k))
  (at level 10, x name, m at level 100, k at level 200).
Notation "m '>>' k" := (bind m (fun _ => k))
  (at level 100, k at level 200, right associativity).

(** [try: body except Exception as e: handler] *)
Definition try_except {A} (body : M A) (handler : exn -> M A) : M A :=
  fun st =>
    match body st with
    | (Ret a, st') => (Ret a, st')
    | (Raise e, st') => handler e st'
    end.

Definition lift {A} (r : res A) : M A := fun st => (r, st).

Definition get_self : M DownloadTask := fun st => (Ret (self st), st).

Definition get_os : M World := fun st => (Ret (os st), st).

Definition modify_self (f : DownloadTask -> DownloadTask) : M unit :=
  fun st => (Ret tt, {| self := f (self st); os := os st |}).

Definition modify_os (f : World -> World) : M unit :=
  fun st => (Ret tt, {| self := self st; os := f (os st) |}).

(** The state a method leaves behind, whether it returned or raised. *)
Definition exec {A} (m : M A) (st : St) : St := snd (m st).

(** [os.makedirs(path, exist_ok=True)] *)
Definition makedirs (path : string) : M unit :=
  let* w := get_os in
  match makedirs_error w with
  | Some e => raise e
  | None => modify_os (fun w => set_dirs (path :: dirs w) w)
  end.

(** [os.path.isdir(path)] *)
Definition isdir (w : World) (path : string) : bool :=
  existsb (String.eqb path) (dirs w).

(** [subprocess.Popen(cmd, ...)]: the handle of the new child *)
Definition Popen (cmd : list string) : M nat :=
  let* w := get_os in
  match popen_error w with
  | Some e => raise e
  | None =>
      modify_os (fun w => set_procs (procs w ++
        [{| argv := cmd; returncode := None; signalled := false |}]) w) >>
      ret (length (procs w))
  end.

(** [p.poll()]: [None] while the child runs *)
Definition poll (w : World) (h : nat) : option Z :=
  match procs w !! h with
  | Some p => returncode p
  | None => None
  end.

Definition signal (p : proc) : proc :=
  {| argv := argv p; returncode := returncode p; signalled := true |}.

(** [p.terminate()] *)
Definition terminate (h : nat) : M unit :=
  let* w := get_os in
  match terminate_error w with
  | Some e => raise e
  | None => modify_os (fun w => set_procs (alter signal h (procs w)) w)
  end.

Definition exit_with (c : Z) (p : proc) : proc :=
  match returncode p with
  | Some _ => p
  | None => {| argv := argv p; returncode := Some c; signalled := signalled p |}
  end.

(** [p.wait()]: blocks until the child has exited; [c] is the code a child
    that is still running exits with. *)
Definition wait (h : nat) (c : Z) : M unit :=
  modify_os (fun w => set_procs (alter (exit_with c) h (procs w)) w).

(** [DownloadTask.log] *)
Definition log (message : string) : M unit :=
  let* w := get_os in
  let log_entry := "[" +:+ clock w +:+ "] " +:+ message in
  modify_self (fun t => set_log_lines (log_lines t ++ [log_entry]) t).

Definition get (o : gmap string pyval) (key : string) (dflt : pyval) : pyval :=
  default dflt (o !! key).

(** [if self.options.get(key)] *)
Definition has_truthy (o : gmap string pyval) (key : string) : bool :=
  match o !! key with
  | Some v => truthy v
  | None => false
  end.

(** [cmd.append(f'--{key}={self.options[key]}')] when [present] *)
Definition flag_if (present : bool) (o : gmap string pyval) (key : string)
    (cmd : list string) : list string :=
  if present then cmd ++ ["--" +:+ key +:+ "=" +:+ format (get o key (VStr ""))]
  else cmd.

Definition header_args (lines : list string) : list string :=
  omap (fun header =>
          let header := strip header in
          if String.eqb header "" then None else Some ("--header=" +:+ header))
       lines.

Section Lifecycle.
(** [shlex.split], of the Python library. *)
Variable shlex_split : string -> res (list string).

(** [DownloadTask.build_command] *)
Definition build_command (aria2_path : string) : M (list string) :=
  let* t := get_self in
  let o := options t in
  let cmd := [aria2_path] in
  let* w := get_os in
  (if isdir w (out_dir t) then ret tt else makedirs (out_dir t)) >>
  let cmd := if truthy (get o "continue" (VBool true)) then cmd ++ ["-c"] else cmd in
  let allocation := get o "file-allocation" (VStr "none") in
  let cmd := cmd ++ ["--file-allocation=" +:+ format allocation] in
  let* split := lift (int_of (get o "split" (VInt 4))) in
  let* max_conn := lift (int_of (get o "max-connection-per-server" (VInt split))) in
  let cmd := cmd ++ ["--split=" +:+ str_of_int split;
                     "--max-connection-per-server=" +:+ str_of_int max_conn] in
  let cmd := flag_if (bool_decide (is_Some (o !! "max-tries"))) o "max-tries" cmd in
  let cmd := flag_if (bool_decide (is_Some (o !! "retry-wait"))) o "retry-wait" cmd in
  let cmd := flag_if (has_truthy o "max-download-limit") o "max-download-limit" cmd in
  let cmd := flag_if (has_truthy o "max-upload-limit") o "max-upload-limit" cmd in
  let cmd := flag_if (has_truthy o "referer") o "referer" cmd in
  let cmd := flag_if (has_truthy o "user-agent") o "user-agent" cmd in
  let* cmd :=
    (if has_truthy o "header" then
       match get o "header" (VStr "") with
       | VStr h => ret (cmd ++ header_args (splitlines h))
       | v => raise (no_attribute v "splitlines")
       end
     else ret cmd) in
  let cmd := cmd ++ ["--allow-overwrite=true"] in
  let cmd := cmd ++ ["--auto-file-renaming=false"] in
  let cmd := if negb (String.eqb (out_name t) "")
             then cmd ++ ["-d"; out_dir t; "-o"; out_name t]
             else cmd ++ ["-d"; out_dir t] in
  let extra_args := get o "extra_args" (VStr "") in
  let* cmd :=
    (if truthy extra_args then
       match extra_args with
       | VStr a =>
           match shlex_split a with
           | Ret l => ret (cmd ++ l)
           | Raise _ => ret (cmd ++ split_ws a)
           end
       | v => raise (no_attribute v "split")
       end
     else ret cmd) in
  ret (cmd ++ [url t]).

(** [DownloadTask._parse_progress] *)
Definition _parse_progress (line : string) : M unit :=
  (match search PROGRESS_RE line with
   | Some m =>
       let g n := default "" (group m n) in
       try_except
         (modify_self (set_gid (Some (g 1%nat))) >>
          let have_str := g 2%nat in
          let total_str := g 3%nat in
          let* p := lift (int_of_str (g 4%nat)) in
          modify_self (set_progress p) >>
          let* c := lift (int_of_str (g 5%nat)) in
          modify_self (set_connections c) >>
          modify_self (set_dl_speed (g 6%nat)) >>
          modify_self (set_eta (strip (g 7%nat))) >>
          let* h := lift (human_to_bytes have_str) in
          modify_self (set_have_bytes h) >>
          let* tb := lift (human_to_bytes total_str) in
          modify_self (set_total_bytes tb))
         (fun e => log ("Failed to parse progress: " +:+ exn_msg e))
   | None => ret tt
   end) >>
  if existsb (fun keyword => contains keyword (lower line))
       ["download complete"; "completed"; "download finished"]
  then modify_self (set_status "Completed")
  else ret tt.

(** [DownloadTask.start].  The reader thread it launches runs as the
    steps [read_line] and [read_finish] below. *)
Definition start (aria2_path : string) : M unit :=
  let* t := get_self in
  match process t with
  | Some _ => log "Task is already in progress."
  | None =>
      let* cmd := build_command aria2_path in
      log ("Start command: " +:+ join " " cmd) >>
      try_except
        (let* h := Popen cmd in
         modify_self (set_process (Some h)) >>
         modify_self (set_status "Downloading...") >>
         modify_self (set_stop_flag false) >>
         modify_self (set_stdout_thread (Some h)))
        (fun e =>
           log ("Failed to start: " +:+ exn_msg e) >>
           modify_self (set_status "Error"))
  end.

(** [self.process and self.process.poll() is None]: the handle of the
    child when there is one and it still runs. *)
Definition live_process (st : St) : option nat :=
  match process (self st) with
  | Some h => match poll (os st) h with None => Some h | Some _ => None end
  | None => None
  end.

(** [DownloadTask.pause] *)
Definition pause : M unit :=
  fun st =>
    match live_process st with
    | Some h =>
        try_except
          (terminate h >>
           log "Download paused" >>
           modify_self (set_status "Paused") >>
           modify_self (set_stop_flag true))
          (fun e => log ("Failed to pause: " +:+ exn_msg e)) st
    | None => ret tt st
    end.

(** [DownloadTask.stop] *)
Definition stop : M unit :=
  (fun st =>
     match live_process st with
     | Some h =>
         try_except
           (terminate h >>
            log "Download stopped" >>
            modify_self (set_stop_flag true))
           (fun e => log ("Failed to stop: " +:+ exn_msg e)) st
     | None => ret tt st
     end) >>
  modify_self (set_status "Stopped").

(** [DownloadTask.resume] *)
Definition resume (aria2_path : string) : M unit :=
  fun st =>
    if String.eqb (status (self st)) "Completed" then
      log "Task already completed, no need to resume" st
    else
      match live_process st with
      | Some _ => log "Task is still running, cannot resume" st
      | None =>
          (log "Resuming download (resume broken download)" >>
           modify_self (fun t =>
             set_options (<["continue" := VBool true]> (options t)) t) >>
           start aria2_path) st
      end.

(** One turn of the loop of [DownloadTask._read_output] on the next line
    of the child's output; [false] is [break]. *)
Definition read_line (line : string) : M bool :=
  let* t := get_self in
  if _stop_flag t then ret false
  else
    let line := rstrip_nl line in
    log line >> _parse_progress line >> ret true.

Fixpoint read_lines (lines : list string) : M unit :=
  match lines with
  | [] => ret tt
  | line :: rest =>
      let* continue := read_line line in
      if continue then read_lines rest else ret tt
  end.

Definition return_code_text (rc : option Z) : string :=
  match rc with
  | Some c => str_of_int c
  | None => "None"
  end.

(** [DownloadTask._read_output] after its loop: wait for the child, then
    update the status.  [code] is the exit code of a child that has not
    exited yet. *)
Definition read_finish (code : Z) : M unit :=
  let* t := get_self in
  (match process t with
   | Some h => wait h code
   | None => ret tt
   end) >>
  let* t := get_self in
  if String.eqb (status t) "Downloading" && negb (_stop_flag t) then
    let* w := get_os in
    let return_code :=
      match process t with
      | Some h => poll w h
      | None => None
      end in
    if bool_decide (return_code = Some 0) then
      modify_self (set_status "Completed") >>
      log "Download completed"
    else
      modify_self (set_status "Error") >>
      log ("Download error, return code: " +:+ return_code_text return_code)
  else ret tt.

(** [DownloadTask._read_output] on a child that prints [lines] and then
    closes its output. *)
Definition _read_output (lines : list string) (code : Z) : M unit :=
  let* t := get_self in
  match process t with
  | None => ret tt
  | Some _ => read_lines lines >> read_finish code
  end.

(** *** What can happen to a task: calls of its methods from the
    control thread, steps of its reader thread, and the environment. *)
Inductive event :=
| EvStart (aria2_path : string)
| EvPause
| EvStop
| EvResume (aria2_path : string)
| EvReadLine (line : string)
| EvReadFinish (code : Z)
| EvReadOutput (lines : list string) (code : Z)
| EvExit (h : nat) (code : Z)
| EvOracle (popen terminate mkdirs : option exn)
| EvClock (now : string).

Definition set_oracle (po te mk : option exn) (w : World) : World :=
  {| procs := procs w; dirs := dirs w; clock := clock w;
     popen_error := po; terminate_error := te; makedirs_error := mk |}.

Definition set_clock (now : string) (w : World) : World :=
  {| procs := procs w; dirs := dirs w; clock := now;
     popen_error := popen_error w; terminate_error := terminate_error w;
     makedirs_error := makedirs_error w |}.

Definition step (ev : event) (st : St) : St :=
  match ev with
  | EvStart p => exec (start p) st
  | EvPause => exec pause st
  | EvStop => exec stop st
  | EvResume p => exec (resume p) st
  | EvReadLine line => exec (read_line line) st
  | EvReadFinish code => exec (read_finish code) st
  | EvReadOutput lines code => exec (_read_output lines code) st
  | EvExit h code =>
      exec (modify_os (fun w => set_procs (alter (exit_with code) h (procs w)) w)) st
  | EvOracle po te mk => exec (modify_os (set_oracle po te mk)) st
  | EvClock now => exec (modify_os (set_clock now)) st
  end.

Definition run (evs : list event) (st : St) : St :=
  fold_left (fun s ev => step ev s) evs st.

(** ** The task list of [Aria2DownloaderApp]

    The widgets are left out; what the application shows is recorded in
    [shown]. *)
Inductive ui_event :=
| ShowWarning (title message : string)
| AppLog (message : string).

Record App := {
  tasks : list DownloadTask;
  selected_task_index : option nat;
  aria2_path_var : string;
  world : World;
  shown : list ui_event
}.

Definition show (e : ui_event) (a : App) : App :=
  {| tasks := tasks a; selected_task_index := selected_task_index a;
     aria2_path_var := aria2_path_var a; world := world a;
     shown := shown a ++ [e] |}.

(** A method of the selected task run to its end, as the handlers of the
    buttons arrange ([_start_task] and [_resume_task] in a thread of
    their own, [_pause_task] and [_stop_task] in place). *)
Definition on_selected (m : M unit) (what : string) (a : App) : res unit * App :=
  match selected_task_index a with
  | None => (Ret tt, show (ShowWarning "Warning" "Please select a task first") a)
  | Some i =>
      match tasks a !! i with
      | None => (Raise (IndexError "list index out of range"), a)
      | Some task =>
          let st := exec m {| self := task; os := world a |} in
          (Ret tt,
           {| tasks := <[i := self st]> (tasks a);
              selected_task_index := selected_task_index a;
              aria2_path_var := aria2_path_var a; world := os st;
              shown := shown a ++ [AppLog (what +:+ url task)] |})
      end
  end.

Definition _start_task (a : App) : res unit * App :=
  on_selected (start (aria2_path_var a)) "Starting task: " a.

Definition _pause_task (a : App) : res unit * App :=
  on_selected pause "Pausing task: " a.

Definition _resume_task (a : App) : res unit * App :=
  on_selected (resume (aria2_path_var a)) "Resuming task: " a.

Definition _stop_task (a : App) : res unit * App :=
  on_selected stop "Stopping task: " a.

(** [Aria2DownloaderApp._delete_task] *)
Definition _delete_task (a : App) : res unit * App :=
  match selected_task_index a with
  | None => (Ret tt, show (ShowWarning "Warning" "Please select a task first") a)
  | Some i =>
      match tasks a !! i with
      | None => (Raise (IndexError "list index out of range"), a)
      | Some task =>
          if String.eqb (status task) "Downloading" then
            (Ret tt, show (ShowWarning "Warning" "Please stop running tasks first") a)
          else
            (Ret tt,
             {| tasks := delete i (tasks a);
                selected_task_index := None;
                aria2_path_var := aria2_path_var a; world := world a;
                shown := shown a ++ [AppLog ("Task deleted: " +:+ url task)] |})
      end
  end.
End Lifecycle.

(** ** Conditions under which [build_command] returns *)

(** The value under [key] is absent, falsy or a [str]. *)
Definition str_or_falsy (o : gmap string pyval) (key : string) : bool :=
  match o !! key with
  | Some (VStr _) | None => true
  | Some v => negb (truthy v)
  end.

(** The output directory exists or [os.makedirs] will not fail. *)
Definition dir_available (st : St) : bool :=
  isdir (os st) (out_dir (self st)) || bool_decide (makedirs_error (os st) = None).

(** ** Unit suffixes of a size token *)

(** The power of 1024 a unit letter stands for. *)
Definition unit_exponent (u : ascii) : option Z :=
  if char_in u "Kk" then Some 1
  else if char_in u "Mm" then Some 2
  else if char_in u "Gg" then Some 3
  else if char_in u "Tt" then Some 4
  else None.

(** What may follow the unit letter: "iB" or "B", in either case. *)
Definition unit_tails : list string := ["iB"; "IB"; "ib"; "Ib"; "B"; "b"].

(** ** More of [Aria2DownloaderApp] *)




(** The loop of [Aria2DownloaderApp._quit_app]: [stop] on every task whose
    status is ["Downloading"], in the order of the list. *)
Fixpoint stop_downloading (ts : list DownloadTask) (w : World)
    : list DownloadTask * World :=
  match ts with
  | [] => ([], w)
  | task :: rest =>
      if String.eqb (status task) "Downloading" then
        let st := exec stop {| self := task; os := w |} in
        let (rest', w') := stop_downloading rest (os st) in
        (self st :: rest', w')
      else
        let (rest', w') := stop_downloading rest w in
        (task :: rest', w')
  end.

(** [Aria2DownloaderApp._quit_app], up to closing the window. *)
Definition _quit_app (a : App) : App :=
  let (ts, w) := stop_downloading (tasks a) (world a) in
  {| tasks := ts; selected_task_index := selected_task_index a;
     aria2_path_var := aria2_path_var a; world := w; shown := shown a |}.

(** ** Notions for the properties of the lifecycle *)

(** The events that are calls of the task's own code, as opposed to what
    the environment does. *)
Definition method_event (ev : event) : bool :=
  match ev with
  | EvStart _ | EvPause | EvStop | EvResume _
  | EvReadLine _ | EvReadFinish _ | EvReadOutput _ _ => true
  | EvExit _ _ | EvOracle _ _ _ | EvClock _ => false
  end.

(** The entry [log] appends for [message]. *)
Definition log_entry (w : World) (message : string) : string :=
  "[" +:+ clock w +:+ "] " +:+ message.

(** The status values the module assigns. *)
Definition status_values : list string :=
  ["Waiting..."; "Downloading..."; "Paused"; "Stopped"; "Completed"; "Error"].

(** What the progress parser writes. *)
Definition progress_view (t : DownloadTask) :=
  (gid t, progress t, have_bytes t, total_bytes t, dl_speed t, eta t, connections t).


(** The log only grows. *)
Definition log_grows (a b : St) : Prop :=
  log_lines (self a) `prefix_of` log_lines (self b).

(** A status among [status_values] stays among them. *)
Definition status_stays_valid (a b : St) : Prop :=
  In (status (self a)) status_values -> In (status (self b)) status_values.

(** A raised stop flag stays raised and the progress fields stay. *)
Definition frozen (a b : St) : Prop :=
  (_stop_flag (self a) = true -> _stop_flag (self b) = true)
  /\ progress_view (self b) = progress_view (self a).

(** The children spawned so far stay, in their places. *)
Definition procs_grow (a b : St) : Prop :=
  procs (os a) `prefix_of` procs (os b).

(** The world and the stop flag stay and the log grows: what the reader's
    loop does to the state. *)
Definition reading (a b : St) : Prop :=
  os b = os a
  /\ _stop_flag (self b) = _stop_flag (self a)
  /\ log_lines (self a) `prefix_of` log_lines (self b).

(** The entry of the child [other] stays, and so does the number of
    children. *)
Definition entry_kept (other : nat) (a b : St) : Prop :=
  procs (os b) !! other = procs (os a) !! other
  /\ length (procs (os b)) = length (procs (os a)).

(** Only the directories of the world change, and nothing of the task. *)
Definition dirs_only (a b : St) : Prop :=
  self b = self a /\ exists ds, os b = set_dirs ds (os a).

(** The arguments [build_command] adds for the options that may be left
    out, in its order. *)
Definition optional_flags (o : gmap string pyval) : list string :=
  flag_if (bool_decide (is_Some (o !! "max-tries"))) o "max-tries" []
  ++ flag_if (bool_decide (is_Some (o !! "retry-wait"))) o "retry-wait" []
  ++ flag_if (has_truthy o "max-download-limit") o "max-download-limit" []
  ++ flag_if (has_truthy o "max-upload-limit") o "max-upload-limit" []
  ++ flag_if (has_truthy o "referer") o "referer" []
  ++ flag_if (has_truthy o "user-agent") o "user-agent" [].

(** The header arguments of a header block given as text. *)
Definition header_flags (o : gmap string pyval) : list string :=
  match o !! "header" with
  | Some (VStr h) => header_args (splitlines h)
  | _ => []
  end.

(** The tokens of extra arguments given as text. *)
Definition extra_tokens (shlex_split : string -> res (list string))
    (o : gmap string pyval) : list string :=
  match o !! "extra_args" with
  | Some (VStr a) =>
      if String.eqb a "" then []
      else match shlex_split a with
           | Ret l => l
           | Raise _ => split_ws a
           end
  | _ => []
  end.

(** The status stays. *)
Definition same_status (a b : St) : Prop := status (self b) = status (self a).

(** The three phrases the progress parser takes for the end of a
    download. *)
Definition completion_keywords : list string :=
  ["download complete"; "completed"; "download finished"].


(** The text of a progress marker with the given parts, single blanks
    between them, followed by [rest]. *)
Definition marker_chars (g have total pct cn speed eta_ rest : list ascii) : list ascii :=
  chars "[#" ++ g ++ chars " " ++ have ++ chars "/" ++ total ++ chars "("
  ++ pct ++ chars "%) CN:" ++ cn ++ chars " DL:" ++ speed ++ chars " ETA:"
  ++ eta_ ++ chars "]" ++ rest.

(** The number of digits up to which CPython's [int] converts a decimal
    text ([sys.int_info.default_max_str_digits]). *)
Definition int_max_str_digits : nat := 4300.

(** A part of a marker: not empty, all of it in the class. *)
Definition part_of (cl : cclass) (l : list ascii) : Prop :=
  l <> [] /\ forallb (in_class cl) l = true.

(** The text [l] is empty or begins outside the class: where a greedy run
    of the class stops. *)
Definition head_outside (cl : cclass) (l : list ascii) : Prop :=
  match l with
  | [] => True
  | c :: _ => in_class cl c = false
  end.

(** ** Sample data *)

Definition sample_world : World :=
  {| procs := []; dirs := ["/tmp"]; clock := "2024-01-01 00:00:00";
     popen_error := None; terminate_error := None; makedirs_error := None |}.

Definition sample_task : DownloadTask :=
  new_task "http://example/file.bin" "/tmp" "" {[ "split" := VInt 4 ]} "/".

Definition sample_state : St := {| self := sample_task; os := sample_world |}.

(** A stand-in for [shlex.split] on text without quotes or escapes. *)
Definition plain_shlex (s : string) : res (list string) := Ret (split_ws s).

Definition sample_app : App :=
  {| tasks := [sample_task]; selected_task_index := Some 0%nat;
     aria2_path_var := "aria2c"; world := sample_world; shown := [] |}.

(** The sample task after a [start] that spawned its child. *)
Definition started_state : St := exec (start plain_shlex "aria2c") sample_state.


Definition marker_line : string :=
  "[#a1b2 10MiB/100MiB(10%) CN:4 DL:1.5MiB ETA:1m0s]".

(** The command line of the sample task. *)
Definition sample_cmd : list string :=
  ["aria2c"; "-c"; "--file-allocation=none"; "--split=4";
   "--max-connection-per-server=4"; "--allow-overwrite=true";
   "--auto-file-renaming=false"; "-d"; "/tmp"; "http://example/file.bin"].

(** The sample task with a [split] option that is no number, and the
    sample task with the ["continue"] option off. *)
Definition bad_split_state : St :=
  {| self := set_options (<["split" := VStr "four"]> (options sample_task)) sample_task;
     os := sample_world |}.

Definition no_continue_state : St :=
  {| self := set_options (<["continue" := VBool false]> (options sample_task)) sample_task;
     os := sample_world |}.

(** The sample state in a world where [Popen] fails. *)
Definition no_aria2_state : St :=
  {| self := sample_task;
     os := set_oracle (Some (OSError "No such file or directory: 'aria2c'")) None None
             sample_world |}.

(** ** Properties kept by the steps of a method

    [preserves R m]: every run of [m] takes a state to an [R]-related one,
    whether [m] returns or raises. *)

Definition preserves (R : St -> St -> Prop) {A} (m : M A) : Prop :=
  forall st, R st (snd (m st)).

(** The relations used below. *)

Definition same_self (a b : St) : Prop := self b = self a.

Definition same_spawns (a b : St) : Prop := spawns (os b) = spawns (os a).

Definition same_process (a b : St) : Prop := process (self b) = process (self a).

Definition not_downloading (a b : St) : Prop :=
  status (self a) <> "Downloading"%string -> status (self b) <> "Downloading"%string.

Section Preserves.
Variable R : St -> St -> Prop.
Hypothesis R_refl : forall st, R st st.
Hypothesis R_trans : forall a b c, R a b -> R b c -> R a c.

Lemma preserves_ret {A} (a : A) : preserves R (ret a).
Proof. intros st. apply R_refl. Qed.

Lemma preserves_raise {A} (e : exn) : preserves R (@raise A e).
Proof. intros st. apply R_refl. Qed.

Lemma preserves_lift {A} (r : res A) : preserves R (lift r).
Proof. intros st. apply R_refl. Qed.

Lemma preserves_get_self : preserves R get_self.
Proof. intros st. apply R_refl. Qed.

Lemma preserves_get_os : preserves R get_os.
Proof. intros st. apply R_refl. Qed.

Lemma preserves_bind {A B} (m : M A) (f : A -> M B) :
  preserves R m -> (forall a, preserves R (f a)) -> preserves R (bind m f).
Proof.
  intros Hm Hf st. unfold bind.
  specialize (Hm st). destruct (m st) as [[a|e] st']; simpl in *.
  - eapply R_trans; [exact Hm | apply Hf].
  - exact Hm.
Qed.

Lemma preserves_try_except {A} (body : M A) (handler : exn -> M A) :
  preserves R body -> (forall e, preserves R (handler e)) ->
  preserves R (try_except body handler).
Proof.
  intros Hb Hh st. unfold try_except.
  specialize (Hb st). destruct (body st) as [[a|e] st']; simpl in *.
  - exact Hb.
  - eapply R_trans; [exact Hb | apply Hh].
Qed.

Lemma preserves_if {A} (b : bool) (m1 m2 : M A) :
  preserves R m1 -> preserves R m2 -> preserves R (if b then m1 else m2).
Proof. destruct b; auto. Qed.

Lemma preserves_on_state {A} (f : St -> M A) :
  (forall s, preserves R (f s)) -> preserves R (fun st => f st st).
Proof. intros H st. apply (H st st). Qed.
End Preserves.


(** *** The primitives under each relation *)

Lemma same_self_refl st : same_self st st.
Proof. reflexivity. Qed.

Lemma same_self_trans a b c : same_self a b -> same_self b c -> same_self a c.
Proof. unfold same_self. congruence. Qed.

Lemma same_spawns_refl st : same_spawns st st.
Proof. reflexivity. Qed.

Lemma same_spawns_trans a b c : same_spawns a b -> same_spawns b c -> same_spawns a c.
Proof. unfold same_spawns. congruence. Qed.

Lemma same_process_refl st : same_process st st.
Proof. reflexivity. Qed.

Lemma same_process_trans a b c :
  same_process a b -> same_process b c -> same_process a c.
Proof. unfold same_process. congruence. Qed.

Lemma not_downloading_refl st : not_downloading st st.
Proof. intros H. exact H. Qed.

Lemma not_downloading_trans a b c :
  not_downloading a b -> not_downloading b c -> not_downloading a c.
Proof. unfold not_downloading. auto. Qed.

Lemma modify_os_same_self f : preserves same_self (modify_os f).
Proof. intros st. reflexivity. Qed.

Lemma modify_os_same_process f : preserves same_process (modify_os f).
Proof. intros st. reflexivity. Qed.

Lemma modify_os_not_downloading f : preserves not_downloading (modify_os f).
Proof. intros st H. exact H. Qed.

Lemma modify_os_same_spawns f :
  (forall w, length (procs (f w)) = length (procs w)) ->
  preserves same_spawns (modify_os f).
Proof. intros H st. apply H. Qed.

Lemma modify_self_same_spawns f : preserves same_spawns (modify_self f).
Proof. intros st. reflexivity. Qed.

Lemma modify_self_same_process f :
  (forall t, process (f t) = process t) -> preserves same_process (modify_self f).
Proof. intros H st. apply H. Qed.

Lemma modify_self_not_downloading f :
  (forall t, status t <> "Downloading"%string -> status (f t) <> "Downloading"%string) ->
  preserves not_downloading (modify_self f).
Proof. intros H st Hs. simpl. apply H. exact Hs. Qed.

(** One structural step of a preservation proof: [refl] and [trans] are
    the two facts about the relation at hand. *)
Ltac preserve_step refl trans :=
  first
    [ apply (preserves_ret _ refl)
    | apply (preserves_raise _ refl)
    | apply (preserves_lift _ refl)
    | apply (preserves_get_self _ refl)
    | apply (preserves_get_os _ refl)
    | apply (preserves_bind _ trans); [ | intros ? ]
    | apply (preserves_try_except _ trans); [ | intros ? ]
    | match goal with
      | |- preserves _ (let _ := _ in _) => cbv zeta
      | |- preserves _ (if ?b then _ else _) => destruct b
      | |- preserves _ (match ?x with _ => _ end) => destruct x
      end ].

Create HintDb pres.

#[local] Hint Resolve modify_os_same_self modify_os_same_process
  modify_os_not_downloading modify_self_same_spawns : pres.

Ltac preserve refl trans :=
  repeat (first [ solve [ eauto with pres ] | preserve_step refl trans ]).

Ltac finish_spawns :=
  try (apply modify_os_same_spawns; intros; simpl;
       rewrite ?length_alter; reflexivity).

Ltac finish_status :=
  try (apply modify_self_not_downloading; intros ? ?; simpl;
       first [ assumption | discriminate ]).

Ltac spawns_kept := preserve same_spawns_refl same_spawns_trans; finish_spawns.
Ltac process_kept := preserve same_process_refl same_process_trans.
Ltac status_kept := preserve not_downloading_refl not_downloading_trans; finish_status.
Ltac self_kept := preserve same_self_refl same_self_trans.

Lemma log_same_spawns msg : preserves same_spawns (log msg).
Proof. unfold log. spawns_kept. Qed.

Lemma log_same_process msg : preserves same_process (log msg).
Proof. unfold log. process_kept. Qed.

Lemma log_not_downloading msg : preserves not_downloading (log msg).
Proof. unfold log. status_kept. Qed.

#[local] Hint Resolve log_same_spawns log_same_process log_not_downloading : pres.

Lemma makedirs_same_self path : preserves same_self (makedirs path).
Proof. unfold makedirs. self_kept. Qed.

Lemma makedirs_same_spawns path : preserves same_spawns (makedirs path).
Proof. unfold makedirs. spawns_kept. Qed.

Lemma terminate_same_spawns h : preserves same_spawns (terminate h).
Proof. unfold terminate. spawns_kept. Qed.

Lemma terminate_same_process h : preserves same_process (terminate h).
Proof. unfold terminate. process_kept. Qed.

Lemma terminate_not_downloading h : preserves not_downloading (terminate h).
Proof. unfold terminate. status_kept. Qed.

Lemma wait_same_spawns h c : preserves same_spawns (wait h c).
Proof. unfold wait. spawns_kept. Qed.

Lemma wait_same_process h c : preserves same_process (wait h c).
Proof. unfold wait. process_kept. Qed.

Lemma wait_not_downloading h c : preserves not_downloading (wait h c).
Proof. unfold wait. status_kept. Qed.

#[local] Hint Resolve makedirs_same_self makedirs_same_spawns
  terminate_same_spawns terminate_same_process terminate_not_downloading
  wait_same_spawns wait_same_process wait_not_downloading : pres.

Lemma parse_progress_same_spawns line : preserves same_spawns (_parse_progress line).
Proof. unfold _parse_progress. spawns_kept. Qed.

Lemma parse_progress_same_process line : preserves same_process (_parse_progress line).
Proof. unfold _parse_progress. process_kept. Qed.

Lemma parse_progress_not_downloading line :
  preserves not_downloading (_parse_progress line).
Proof. unfold _parse_progress. status_kept. Qed.

#[local] Hint Resolve parse_progress_same_spawns parse_progress_same_process
  parse_progress_not_downloading : pres.

Lemma read_line_same_spawns line : preserves same_spawns (read_line line).
Proof. unfold read_line. spawns_kept. Qed.

Lemma read_line_same_process line : preserves same_process (read_line line).
Proof. unfold read_line. process_kept. Qed.

Lemma read_line_not_downloading line : preserves not_downloading (read_line line).
Proof. unfold read_line. status_kept. Qed.

#[local] Hint Resolve read_line_same_spawns read_line_same_process
  read_line_not_downloading : pres.

Lemma read_lines_same_spawns lines : preserves same_spawns (read_lines lines).
Proof. induction lines; simpl; spawns_kept. Qed.

Lemma read_lines_same_process lines : preserves same_process (read_lines lines).
Proof. induction lines; simpl; process_kept. Qed.

Lemma read_lines_not_downloading lines : preserves not_downloading (read_lines lines).
Proof. induction lines; simpl; status_kept. Qed.

Lemma read_finish_same_spawns code : preserves same_spawns (read_finish code).
Proof. unfold read_finish. spawns_kept. Qed.

Lemma read_finish_same_process code : preserves same_process (read_finish code).
Proof. unfold read_finish. process_kept. Qed.

Lemma read_finish_not_downloading code : preserves not_downloading (read_finish code).
Proof. unfold read_finish. status_kept. Qed.

#[local] Hint Resolve read_lines_same_spawns read_lines_same_process
  read_lines_not_downloading read_finish_same_spawns read_finish_same_process
  read_finish_not_downloading : pres.

Lemma read_output_same_spawns lines code :
  preserves same_spawns (_read_output lines code).
Proof. unfold _read_output. spawns_kept. Qed.

Lemma read_output_same_process lines code :
  preserves same_process (_read_output lines code).
Proof. unfold _read_output. process_kept. Qed.

Lemma read_output_not_downloading lines code :
  preserves not_downloading (_read_output lines code).
Proof. unfold _read_output. status_kept. Qed.

(** From a goal about one run back to [preserves]. *)
Ltac to_preserves :=
  match goal with
  | |- ?R ?st (snd (?m ?st)) => generalize st; change (preserves R m)
  end.

Lemma pause_same_spawns : preserves same_spawns pause.
Proof.
  intros st. unfold pause. destruct (live_process st); to_preserves; spawns_kept.
Qed.

Lemma pause_same_process : preserves same_process pause.
Proof.
  intros st. unfold pause. destruct (live_process st); to_preserves; process_kept.
Qed.

Lemma pause_not_downloading : preserves not_downloading pause.
Proof.
  intros st. unfold pause. destruct (live_process st); to_preserves; status_kept.
Qed.

Lemma stop_same_spawns : preserves same_spawns stop.
Proof.
  unfold stop. apply (preserves_bind _ same_spawns_trans); [ | intros; spawns_kept ].
  intros st. destruct (live_process st); to_preserves; spawns_kept.
Qed.

Lemma stop_same_process : preserves same_process stop.
Proof.
  unfold stop. apply (preserves_bind _ same_process_trans); [ | intros; process_kept ].
  intros st. destruct (live_process st); to_preserves; process_kept.
Qed.

Lemma stop_not_downloading : preserves not_downloading stop.
Proof.
  unfold stop. apply (preserves_bind _ not_downloading_trans); [ | intros; status_kept ].
  intros st. destruct (live_process st); to_preserves; status_kept.
Qed.

Section LifecycleFacts.
Variable shlex_split : string -> res (list string).

Lemma build_command_same_self p : preserves same_self (build_command shlex_split p).
Proof. unfold build_command. self_kept. Qed.

Lemma build_command_same_spawns p :
  preserves same_spawns (build_command shlex_split p).
Proof. unfold build_command. spawns_kept. Qed.

(** [start] on a task that holds a process handle only logs. *)
Lemma start_already p st h :
  process (self st) = Some h ->
  start shlex_split p st = log "Task is already in progress." st.
Proof.
  intros H. unfold start, bind at 1, get_self. rewrite H. reflexivity.
Qed.

Lemma log_state msg st :
  log msg st =
  (Ret tt,
   {| self := set_log_lines
                (log_lines (self st) ++ ["[" +:+ clock (os st) +:+ "] " +:+ msg])
                (self st);
      os := os st |}).
Proof. reflexivity. Qed.

(** What a [start] that set the process handle did. *)
Lemma start_spawned p st h :
  process (self st) = None ->
  process (self (exec (start shlex_split p) st)) = Some h ->
  let st' := exec (start shlex_split p) st in
  h = spawns (os st)
  /\ spawns (os st') = S (spawns (os st))
  /\ poll (os st') h = None
  /\ status (self st') = "Downloading..."%string
  /\ _stop_flag (self st') = false
  /\ exists entry, log_lines (self st') = log_lines (self st) ++ [entry].
Proof.
  intros Hnone.
  pose proof (build_command_same_self p st) as Hself.
  pose proof (build_command_same_spawns p st) as Hsp.
  cbv beta iota zeta delta [exec start bind get_self]. rewrite Hnone.
  destruct (build_command shlex_split p st) as [[cmd|e] st1];
    unfold same_self, same_spawns in *; simpl in Hself, Hsp.
  - cbv beta iota zeta delta
      [try_except Popen bind get_os log modify_self modify_os ret raise].
    simpl. destruct (popen_error (os st1)) as [e|] eqn:Hpo; simpl.
    + rewrite Hself, Hnone. discriminate.
    + intros Hh. injection Hh as <-.
      unfold spawns, poll in *. simpl. rewrite Hself.
      split; [ exact Hsp | ].
      split; [ rewrite length_app; simpl; lia | ].
      split; [ rewrite lookup_app_r by lia; rewrite Nat.sub_diag; reflexivity | ].
      repeat split. eexists. reflexivity.
  - simpl. rewrite Hself, Hnone. discriminate.
Qed.

Lemma build_command_not_downloading p :
  preserves not_downloading (build_command shlex_split p).
Proof.
  intros st H. rewrite (build_command_same_self p st). exact H.
Qed.

Lemma Popen_not_downloading cmd : preserves not_downloading (Popen cmd).
Proof. unfold Popen. status_kept. Qed.

Lemma start_not_downloading p : preserves not_downloading (start shlex_split p).
Proof.
  pose proof build_command_not_downloading.
  pose proof Popen_not_downloading.
  unfold start. status_kept.
Qed.

Lemma resume_not_downloading p : preserves not_downloading (resume shlex_split p).
Proof.
  pose proof start_not_downloading.
  intros st. unfold resume.
  destruct (String.eqb _ _); [ to_preserves; status_kept | ].
  destruct (live_process st); to_preserves; status_kept.
Qed.

(** With a process handle in place, [start] and [resume] keep the handle
    and spawn nothing. *)
Lemma start_when_set p st h :
  process (self st) = Some h ->
  same_process st (exec (start shlex_split p) st)
  /\ same_spawns st (exec (start shlex_split p) st).
Proof.
  intros H. unfold exec. rewrite (start_already p st h H).
  split; [ apply log_same_process | apply log_same_spawns ].
Qed.

Lemma resume_when_set p st h :
  process (self st) = Some h ->
  same_process st (exec (resume shlex_split p) st)
  /\ same_spawns st (exec (resume shlex_split p) st).
Proof.
  intros H. unfold exec, resume.
  destruct (String.eqb _ _);
    [ split; [ apply log_same_process | apply log_same_spawns ] | ].
  destruct (live_process st);
    [ split; [ apply log_same_process | apply log_same_spawns ] | ].
  cbv beta iota zeta delta [bind]. rewrite log_state.
  cbv beta iota zeta delta [modify_self].
  match goal with
  | |- context [start shlex_split p ?s] =>
      destruct (start_when_set p s h) as [Hp Hs]; [ exact H | ];
      unfold exec in Hp, Hs; split;
      [ unfold same_process in *; rewrite Hp; reflexivity
      | unfold same_spawns in *; rewrite Hs; reflexivity ]
  end.
Qed.

Lemma step_when_set ev st h :
  process (self st) = Some h ->
  same_process st (step shlex_split ev st)
  /\ same_spawns st (step shlex_split ev st).
Proof.
  intros H. destruct ev; simpl; unfold exec.
  - apply (start_when_set _ _ h H).
  - split; [ apply pause_same_process | apply pause_same_spawns ].
  - split; [ apply stop_same_process | apply stop_same_spawns ].
  - apply (resume_when_set _ _ h H).
  - split; [ apply read_line_same_process | apply read_line_same_spawns ].
  - split; [ apply read_finish_same_process | apply read_finish_same_spawns ].
  - split; [ apply read_output_same_process | apply read_output_same_spawns ].
  - split; [ reflexivity | ]. unfold same_spawns, spawns. simpl. apply length_alter.
  - split; reflexivity.
  - split; reflexivity.
Qed.

Lemma run_when_set evs st h :
  process (self st) = Some h ->
  process (self (run shlex_split evs st)) = Some h
  /\ spawns (os (run shlex_split evs st)) = spawns (os st).
Proof.
  revert st. induction evs as [|ev evs IH]; intros st H; simpl.
  - split; [ exact H | reflexivity ].
  - destruct (step_when_set ev st h H) as [Hp Hs].
    unfold same_process, same_spawns in *.
    destruct (IH (step shlex_split ev st)) as [Hp' Hs'].
    + rewrite Hp. exact H.
    + split; [ exact Hp' | rewrite Hs'; exact Hs ].
Qed.

Lemma step_not_downloading ev st :
  not_downloading st (step shlex_split ev st).
Proof.
  destruct ev; simpl; unfold exec.
  - apply start_not_downloading.
  - apply pause_not_downloading.
  - apply stop_not_downloading.
  - apply resume_not_downloading.
  - apply read_line_not_downloading.
  - apply read_finish_not_downloading.
  - apply read_output_not_downloading.
  - intros H. exact H.
  - intros H. exact H.
  - intros H. exact H.
Qed.

(** No run of the task ever gives it the status ["Downloading"]: the
    status [start] sets is ["Downloading..."]. *)
Lemma run_not_downloading evs st :
  status (self st) <> "Downloading"%string ->
  status (self (run shlex_split evs st)) <> "Downloading"%string.
Proof.
  revert st. induction evs as [|ev evs IH]; intros st H; simpl.
  - exact H.
  - apply IH. apply step_not_downloading. exact H.
Qed.

(** The reader's final update is guarded by [status == "Downloading"]:
    on any other status it changes nothing in the task. *)
Lemma read_finish_unguarded code st :
  status (self st) <> "Downloading"%string ->
  self (exec (read_finish code) st) = self st.
Proof.
  intros H. unfold exec, read_finish.
  cbv beta iota zeta delta [bind get_self wait modify_os ret].
  assert (E : String.eqb (status (self st)) "Downloading" = false)
    by (apply String.eqb_neq; exact H).
  destruct (process (self st)); simpl; rewrite E; reflexivity.
Qed.

(** From a new task on, the exit code never reaches the status or the
    log. *)
Lemma reader_never_classifies evs code u d n o cwd w :
  let st := run shlex_split evs {| self := new_task u d n o cwd; os := w |} in
  self (exec (read_finish code) st) = self st.
Proof.
  intros st. apply read_finish_unguarded. apply run_not_downloading.
  simpl. discriminate.
Qed.

Lemma read_finish_os code st :
  os (exec (read_finish code) st) =
  match process (self st) with
  | Some h => set_procs (alter (exit_with code) h (procs (os st))) (os st)
  | None => os st
  end.
Proof.
  unfold exec, read_finish.
  cbv beta iota zeta delta [bind get_self get_os wait modify_os modify_self ret log].
  destruct (process (self st)); simpl;
    destruct (String.eqb _ _ && negb _); simpl; try reflexivity;
    destruct (bool_decide _); reflexivity.
Qed.

Lemma read_output_nothing code st h :
  process (self st) = Some h ->
  _read_output [] code st = read_finish code st.
Proof.
  intros H. unfold _read_output. cbv beta iota zeta delta [bind get_self].
  rewrite H. simpl. destruct (read_finish code st) as [[[]|e] st']; reflexivity.
Qed.

Lemma poll_after_exit code h w :
  (h < length (procs w))%nat ->
  poll w h = None ->
  poll (set_procs (alter (exit_with code) h (procs w)) w) h = Some code.
Proof.
  unfold poll. simpl. intros Hlt Hp. rewrite list_lookup_alter_eq.
  destruct (lookup_lt_is_Some_2 _ _ Hlt) as [pr Hpr].
  rewrite Hpr in *. simpl. unfold exit_with. rewrite Hp. reflexivity.
Qed.

(** C1.  After a [start] that spawned the child, let the child print
    nothing and exit with [code]; the reader waits for it and sees the
    code, and yet the status stays ["Downloading..."] and the log gets no
    line: the status is neither ["Completed"] for code 0 nor ["Error"]
    for another code.  The final update of [_read_output] compares the
    status with ["Downloading"], which [start] never sets. *)
Theorem exit_code_not_classified p st h code :
  process (self st) = None ->
  process (self (exec (start shlex_split p) st)) = Some h ->
  let st1 := exec (start shlex_split p) st in
  let st2 := exec (_read_output [] code) st1 in
  poll (os st2) h = Some code
  /\ status (self st2) = "Downloading..."%string
  /\ log_lines (self st2) = log_lines (self st1).
Proof.
  intros Hnone Hset st1 st2.
  destruct (start_spawned p st h Hnone Hset) as (Hh & Hs & Hpoll & Hst & _).
  fold st1 in Hs, Hpoll, Hst, Hset.
  assert (E : st2 = exec (read_finish code) st1).
  { unfold st2, exec. rewrite (read_output_nothing code st1 h Hset). reflexivity. }
  assert (Hself : self st2 = self st1).
  { rewrite E. apply read_finish_unguarded. rewrite Hst. discriminate. }
  split; [ | rewrite Hself; split; [ exact Hst | reflexivity ] ].
  rewrite E, read_finish_os, Hset.
  apply poll_after_exit; [ | exact Hpoll ].
  unfold spawns in *. lia.
Qed.

(** C2.  A task whose [start] spawned its child is paused and resumed at
    once, or resumed after the terminated child has exited: in both runs
    the task has spawned one child in all, not two.  [resume] either
    finds the child still alive and refuses, or calls [start], which
    finds the process handle in place and only logs. *)
Theorem pause_resume_spawns_once p st h code :
  process (self st) = None ->
  process (self (exec (start shlex_split p) st)) = Some h ->
  spawns (os (run shlex_split [EvStart p; EvPause; EvResume p] st))
    = S (spawns (os st))
  /\ spawns (os (run shlex_split [EvStart p; EvPause; EvExit h code; EvResume p] st))
    = S (spawns (os st)).
Proof.
  intros Hnone Hset.
  destruct (start_spawned p st h Hnone Hset) as (_ & Hs & _).
  split.
  - change (run shlex_split [EvStart p; EvPause; EvResume p] st)
      with (run shlex_split [EvPause; EvResume p] (exec (start shlex_split p) st)).
    destruct (run_when_set [EvPause; EvResume p] _ h Hset) as [_ E].
    rewrite E. exact Hs.
  - change (run shlex_split [EvStart p; EvPause; EvExit h code; EvResume p] st)
      with (run shlex_split [EvPause; EvExit h code; EvResume p]
              (exec (start shlex_split p) st)).
    destruct (run_when_set [EvPause; EvExit h code; EvResume p] _ h Hset) as [_ E].
    rewrite E. exact Hs.
Qed.

(** C10.  Once the process handle of a task is set, no method of the
    task, no step of its reader and no event of the environment resets
    it; any later [start], also after the child has exited, only logs
    "Task is already in progress." and spawns nothing, and no child was
    spawned in between either. *)
Theorem process_handle_never_reset evs st h p :
  process (self st) = Some h ->
  let st' := run shlex_split evs st in
  process (self st') = Some h
  /\ start shlex_split p st' = log "Task is already in progress." st'
  /\ spawns (os (exec (start shlex_split p) st')) = spawns (os st')
  /\ spawns (os st') = spawns (os st).
Proof.
  intros H st'.
  destruct (run_when_set evs st h H) as [Hp Hs]. fold st' in Hp, Hs.
  split; [ exact Hp | ].
  split; [ apply (start_already p st' h Hp) | ].
  split; [ | exact Hs ].
  destruct (start_when_set p st' h Hp) as [_ E]. exact E.
Qed.

Lemma stop_status st : status (self (exec stop st)) = "Stopped"%string.
Proof.
  unfold exec, stop. cbv beta iota zeta delta [bind].
  destruct (live_process st) as [h|]; [ | reflexivity ].
  cbv beta iota zeta delta [try_except bind terminate get_os raise].
  destruct (terminate_error (os st)); reflexivity.
Qed.

(** C9.  Two calls of [stop] in a row, from any state of the task and of
    the world (a child alive or not, [terminate] failing or not): no
    child is spawned and the status is ["Stopped"]. *)
Theorem stop_twice st :
  let st' := exec stop (exec stop st) in
  spawns (os st') = spawns (os st) /\ status (self st') = "Stopped"%string.
Proof.
  intros st'. split; [ | apply stop_status ].
  pose proof (stop_same_spawns (exec stop st)) as H1.
  pose proof (stop_same_spawns st) as H2.
  unfold same_spawns in *. etransitivity; [ exact H1 | exact H2 ].
Qed.

(** C8.  [resume] on a task whose status is ["Completed"], or whose
    child is alive, only appends its log message: it returns what [log]
    returns and spawns nothing.  Otherwise it logs, sets the option
    ["continue"] to [True] and is the call of [start] on the task so
    changed. *)
Theorem resume_refuses_or_restarts p st :
  (status (self st) = "Completed"%string ->
     resume shlex_split p st = log "Task already completed, no need to resume" st
     /\ spawns (os (exec (resume shlex_split p) st)) = spawns (os st))
  /\ (status (self st) <> "Completed"%string ->
      forall h, live_process st = Some h ->
      resume shlex_split p st = log "Task is still running, cannot resume" st
      /\ spawns (os (exec (resume shlex_split p) st)) = spawns (os st))
  /\ (status (self st) <> "Completed"%string ->
      live_process st = None ->
      let st1 := exec (log "Resuming download (resume broken download)") st in
      let st2 := {| self := set_options (<["continue" := VBool true]> (options (self st1)))
                              (self st1);
                    os := os st1 |} in
      options (self st2) !! "continue" = Some (VBool true)
      /\ resume shlex_split p st = start shlex_split p st2).
Proof.
  split; [ | split ].
  - intros H. unfold exec, resume. rewrite H. simpl. split; reflexivity.
  - intros H h Hl. apply String.eqb_neq in H.
    unfold exec, resume. rewrite H, Hl. split; reflexivity.
  - intros H Hl st1 st2. apply String.eqb_neq in H.
    split; [ simpl; apply lookup_insert_eq | ].
    unfold resume. rewrite H, Hl. reflexivity.
Qed.

(** The guard of [_delete_task] holds back a task whose status is the
    string ["Downloading"]. *)
Lemma delete_refused_on_literal a i t :
  selected_task_index a = Some i ->
  tasks a !! i = Some t ->
  status t = "Downloading"%string ->
  tasks (snd (_delete_task a)) = tasks a.
Proof.
  intros Hi Ht Hs. unfold _delete_task. rewrite Hi, Ht, Hs. reflexivity.
Qed.

(** C3.  Select a task, start it so that its child is spawned, and
    delete it while the child still runs: the task has the status
    ["Downloading..."], and [_delete_task] removes it from the task list
    all the same, because its guard compares the status with
    ["Downloading"]. *)
Theorem started_task_is_deleted a i t h :
  selected_task_index a = Some i ->
  tasks a !! i = Some t ->
  process t = None ->
  let a1 := snd (_start_task shlex_split a) in
  process <$> tasks a1 !! i = Some (Some h) ->
  status <$> tasks a1 !! i = Some "Downloading..."%string
  /\ poll (world a1) h = None
  /\ fst (_delete_task a1) = Ret tt
  /\ tasks (snd (_delete_task a1)) = delete i (tasks a1)
  /\ length (tasks (snd (_delete_task a1))) = pred (length (tasks a)).
Proof.
  intros Hi Ht Hnone a1.
  assert (Hlt : (i < length (tasks a))%nat) by (eapply lookup_lt_Some; exact Ht).
  unfold a1, _start_task, on_selected. rewrite Hi, Ht. simpl.
  rewrite list_lookup_insert_eq by exact Hlt. simpl.
  intros Hset. injection Hset as Hset.
  destruct (start_spawned (aria2_path_var a) {| self := t; os := world a |} h
              Hnone Hset) as (_ & _ & Hpoll & Hst & _).
  rewrite Hst. split; [ reflexivity | ]. split; [ exact Hpoll | ].
  unfold _delete_task. simpl.
  rewrite list_lookup_insert_eq by exact Hlt. rewrite Hst. simpl.
  split; [ reflexivity | ]. split; [ reflexivity | ].
  rewrite length_delete.
  - rewrite length_insert. lia.
  - rewrite list_lookup_insert_eq by exact Hlt. eauto.
Qed.

Lemma in_flag_if x b o key cmd : In x cmd -> In x (flag_if b o key cmd).
Proof.
  unfold flag_if. destruct b; [ | trivial ].
  intros H. apply in_or_app. left. exact H.
Qed.

Lemma in_app_left (x : string) l l' : In x l -> In x (l ++ l').
Proof. intros H. apply in_or_app. left. exact H. Qed.

(** C7.  With [split] set to 4 and no ["max-connection-per-server"]
    option, every argument vector [build_command] returns holds
    ["--split=4"] and ["--max-connection-per-server=4"]; and it does
    return one when the output directory is there or can be made and the
    header block and the extra arguments are text. *)
Theorem build_command_split_default p st :
  options (self st) !! "split" = Some (VInt 4) ->
  options (self st) !! "max-connection-per-server" = None ->
  (forall cmd, fst (build_command shlex_split p st) = Ret cmd ->
     In "--split=4"%string cmd /\ In "--max-connection-per-server=4"%string cmd)
  /\ (dir_available st = true ->
      str_or_falsy (options (self st)) "header" = true ->
      str_or_falsy (options (self st)) "extra_args" = true ->
      exists cmd, fst (build_command shlex_split p st) = Ret cmd).
Proof.
  intros Hsplit Hmax.
  unfold build_command.
  cbv beta iota zeta delta [bind get_self get_os lift ret raise makedirs modify_os].
  assert (Es : get (options (self st)) "split" (VInt 4) = VInt 4)
    by (unfold get; rewrite Hsplit; reflexivity).
  assert (Em : get (options (self st)) "max-connection-per-server" (VInt 4) = VInt 4)
    by (unfold get; rewrite Hmax; reflexivity).
  rewrite Es. cbn [int_of]. rewrite Em. cbn [int_of].
  change (str_of_int 4) with "4"%string.
  change ("--split=" +:+ "4")%string with "--split=4"%string.
  change ("--max-connection-per-server=" +:+ "4")%string
    with "--max-connection-per-server=4"%string.
  match goal with
  | |- context [flag_if ?b ?o "user-agent" ?c] =>
      assert (Hbase : In "--split=4"%string (flag_if b o "user-agent" c)
                      /\ In "--max-connection-per-server=4"%string
                           (flag_if b o "user-agent" c))
        by (split; repeat apply in_flag_if; apply in_or_app; right;
            simpl; auto);
      set (base := flag_if b o "user-agent" c) in *; clearbody base
  end.
  destruct Hbase as [Hb1 Hb2].
  unfold dir_available, str_or_falsy, has_truthy, get.
  destruct (isdir (os st) (out_dir (self st)));
    cbn beta iota;
    destruct (makedirs_error (os st));
    destruct (options (self st) !! "header") as [[[]|n|h]|];
    cbn [default from_option id truthy];
    try destruct (n =? 0); try destruct (String.eqb h "");
    cbn [negb];
    destruct (options (self st) !! "extra_args") as [[[]|n'|a]|];
    cbn [default from_option id truthy];
    try destruct (n' =? 0); try destruct (String.eqb a "");
    cbn [negb];
    try destruct (shlex_split a);
    destruct (negb (String.eqb (out_name (self st)) ""));
    cbn [fst orb];
    (split;
     [ intros cmd Hc; first [ discriminate Hc | injection Hc as <- ];
       split; repeat (first [ assumption | apply in_app_left ])
     | intros H1 H2 H3;
       first [ discriminate | eexists; reflexivity ] ]).
Qed.
End LifecycleFacts.

(** ** The matcher on a run of class characters *)

Lemma chars_str l : chars (str l) = l.
Proof. apply list_ascii_of_string_of_list_ascii. Qed.

Lemma str_chars s : str (chars s) = s.
Proof. apply string_of_list_ascii_of_string. Qed.

(** A greedy repetition over a run [ds] of class characters that ends
    before [rest]: when the continuation accepts [rest], that is the
    match. *)
Lemma star_greedy {R} (p : ascii -> bool) ds rest (k : list ascii -> option R) r :
  forallb p ds = true ->
  k rest = Some r ->
  match rest with [] => True | c :: _ => p c = false end ->
  star_from p (ds ++ rest) k = Some r.
Proof.
  intros Hds Hk Hrest. induction ds as [|d ds IH]; simpl in *.
  - destruct rest as [|c rest']; [ exact Hk | ]. simpl. rewrite Hrest. exact Hk.
  - apply andb_prop in Hds as [Hd Hds]. rewrite Hd, (IH Hds). reflexivity.
Qed.

Lemma take_run (ds rest : list ascii) :
  take (length (ds ++ rest) - length rest) (ds ++ rest) = ds.
Proof.
  rewrite length_app.
  replace (length ds + length rest - length rest)%nat with (length ds) by lia.
  apply take_app_length.
Qed.

Lemma match_group_plus {R} n cl ds rest cs
    (k : list ascii -> captures -> option R) r :
  ds <> [] ->
  forallb (in_class cl) ds = true ->
  match rest with [] => True | c :: _ => in_class cl c = false end ->
  k rest ((n, ds) :: cs) = Some r ->
  match_from (Group n (Plus cl)) (ds ++ rest) cs k = Some r.
Proof.
  intros Hne Hds Hrest Hk. destruct ds as [|d ds]; [ congruence | ].
  cbn [match_from app]. simpl in Hds. apply andb_prop in Hds as [Hd Hds].
  rewrite Hd. apply star_greedy; [ exact Hds | | exact Hrest ].
  change (d :: ds ++ rest) with ((d :: ds) ++ rest).
  rewrite take_run. exact Hk.
Qed.

Lemma digit_in_c_num d : is_digit d = true -> in_class c_num d = true.
Proof.
  destruct d as [[] [] [] [] [] [] [] []]; intros H;
    first [ discriminate H | reflexivity ].
Qed.

Lemma digits_in_c_num ds :
  forallb is_digit ds = true -> forallb (in_class c_num) ds = true.
Proof.
  induction ds as [|d ds IH]; simpl; [ trivial | ].
  intros H. apply andb_prop in H as [Hd Hds].
  rewrite (digit_in_c_num d Hd), (IH Hds). reflexivity.
Qed.

Lemma match_seq {R} a b s cs (k : list ascii -> captures -> option R) :
  match_from (Seq a b) s cs k
  = match_from a s cs (fun s' cs' => match_from b s' cs' k).
Proof. reflexivity. Qed.

(** [UNIT_RE] on a run [tok] of digits and dots followed by [rest]: group 1
    is the run, and the match goes on from [rest] with the white space and
    the unit. *)
Lemma unit_re_on_token tok rest caps :
  tok <> [] ->
  forallb (in_class c_num) tok = true ->
  match rest with [] => True | c :: _ => in_class c_num c = false end ->
  match_from
    (seqs [Star c_space;
           Opt (Group 2 (seqs [Opt (Cls c_kmgt); Opt (Lit "i"); Lit "B"]))])
    rest [(1%nat, tok)] (fun _ cs => Some cs) = Some caps ->
  search_chars UNIT_RE (tok ++ rest) = Some caps.
Proof.
  intros Hne Htok Hrest Hk.
  assert (E : match_from UNIT_RE (tok ++ rest) [] (fun _ cs => Some cs) = Some caps).
  { unfold UNIT_RE, seqs. cbn [fold_right]. rewrite match_seq.
    apply match_group_plus; assumption. }
  destruct tok as [|d tok]; [ congruence | ].
  change ((d :: tok) ++ rest) with (d :: (tok ++ rest)) in *.
  cbn [search_chars]. rewrite E. reflexivity.
Qed.

(** *** Whole numbers below [2^53] are binary64 values *)

Lemma digit_val_range d : is_digit d = true -> 0 <= digit_val d <= 9.
Proof.
  destruct d as [[] [] [] [] [] [] [] []]; intros H;
    first [ discriminate H | vm_compute; split; discriminate ].
Qed.

Lemma fold_digits_nonneg ds acc :
  0 <= acc -> forallb is_digit ds = true ->
  0 <= fold_left (fun a c => a * 10 + digit_val c) ds acc.
Proof.
  revert acc. induction ds as [|d ds IH]; simpl; intros acc Hacc H; [ exact Hacc | ].
  apply andb_prop in H as [Hd Hds].
  apply IH; [ | exact Hds ]. pose proof (digit_val_range d Hd). lia.
Qed.

Lemma digits_value_nonneg ds : forallb is_digit ds = true -> 0 <= digits_value ds.
Proof. apply fold_digits_nonneg. lia. Qed.

Lemma round_double_whole N :
  0 < N < 2 ^ 53 ->
  round_double N 1 = Fin (N * 2 ^ (52 - Z.log2 N)) (Z.log2 N - 52).
Proof.
  intros [Hpos Hlt].
  assert (Hl0 : 0 <= Z.log2 N) by apply Z.log2_nonneg.
  assert (Hl : Z.log2 N < 53) by (apply Z.log2_lt_pow2; lia).
  assert (Hlow : 2 ^ Z.log2 N <= N) by (apply Z.log2_spec; lia).
  unfold round_double.
  replace (N =? 0) with false by (symmetry; apply Z.eqb_neq; lia).
  unfold floor_log2_quot. change (Z.log2 1) with 0. rewrite Z.sub_0_r.
  replace (0 <=? Z.log2 N) with true by (symmetry; apply Z.leb_le; lia).
  rewrite Z.mul_1_l.
  replace (2 ^ Z.log2 N <=? N) with true by (symmetry; apply Z.leb_le; lia).
  cbv zeta.
  replace (Z.max (Z.log2 N - 52) (-1074)) with (Z.log2 N - 52) by lia.
  unfold round_half_even, overflows.
  destruct (Z.leb_spec 0 (Z.log2 N - 52)) as [Hu|Hu].
  - assert (E : Z.log2 N = 52) by lia. rewrite E. simpl Z.sub. simpl Z.pow at 1 2.
    rewrite Z.mul_1_l, Z.div_1_r, Z.mod_1_r. simpl.
    change (2 ^ 0) with 1. rewrite !Z.mul_1_r.
    replace (_ <=? N) with false by (symmetry; apply Z.leb_gt; lia).
    reflexivity.
  - rewrite Z.div_1_r, Z.mod_1_r. simpl.
    replace (- (Z.log2 N - 52)) with (52 - Z.log2 N) by lia. reflexivity.
Qed.

Lemma int_of_round_whole N :
  0 <= N < 2 ^ 53 -> int_of_float (round_double N 1) = Ret N.
Proof.
  intros [H0 Hlt].
  destruct (Z.eq_dec N 0) as [->|Hne]; [ reflexivity | ].
  rewrite round_double_whole by lia.
  assert (Hl0 : 0 <= Z.log2 N) by apply Z.log2_nonneg.
  assert (Hl : Z.log2 N < 53) by (apply Z.log2_lt_pow2; lia).
  unfold int_of_float. f_equal.
  destruct (Z.leb_spec 0 (Z.log2 N - 52)) as [Hu|Hu].
  - replace (Z.log2 N) with 52 by lia. simpl. lia.
  - replace (- (Z.log2 N - 52)) with (52 - Z.log2 N) by lia.
    apply Z.div_mul. apply Z.pow_nonzero; lia.
Qed.

Lemma int_of_scaled_whole N j :
  0 <= N < 2 ^ 53 -> 0 <= j <= 40 ->
  int_of_float (float_mul_pow2 (round_double N 1) j) = Ret (N * 2 ^ j).
Proof.
  intros [H0 Hlt] [Hj0 Hj].
  assert (Hpow : 0 < 2 ^ j) by (apply Z.pow_pos_nonneg; lia).
  assert (Hj' : 2 ^ j <= 2 ^ 40) by (apply Z.pow_le_mono_r; lia).
  destruct (Z.eq_dec N 0) as [->|Hne].
  - change (round_double 0 1) with (Fin 0 0). unfold float_mul_pow2, overflows.
    assert (E : (2 ^ 1024 <=? 0 * 2 ^ (0 + j)) = false)
      by (rewrite Z.mul_0_l; reflexivity).
    rewrite E, andb_false_r. unfold int_of_float.
    destruct (0 <=? 0 + j); rewrite ?Z.mul_0_l, ?Zdiv_0_l; reflexivity.
  - rewrite round_double_whole by lia.
    assert (Hl0 : 0 <= Z.log2 N) by apply Z.log2_nonneg.
    assert (Hl : Z.log2 N < 53) by (apply Z.log2_lt_pow2; lia).
    set (l := Z.log2 N) in *.
    assert (Hval : forall a b, 0 <= a -> 0 <= b -> N * 2 ^ (a + b) = N * 2 ^ a * 2 ^ b)
      by (intros; rewrite Z.pow_add_r by lia; ring).
    unfold float_mul_pow2, overflows.
    assert (Hno : (0 <=? l - 52 + j) && (2 ^ 1024 <=? N * 2 ^ (52 - l) * 2 ^ (l - 52 + j)) = false).
    { destruct (Z.leb_spec 0 (l - 52 + j)) as [Hu|Hu]; [ | reflexivity ].
      simpl andb. apply Z.leb_gt.
      rewrite <- Hval by lia. replace (52 - l + (l - 52 + j)) with j by lia.
      assert (N * 2 ^ j < 2 ^ 53 * 2 ^ 40) by nia.
      assert (2 ^ 53 * 2 ^ 40 < 2 ^ 1024) by reflexivity. lia. }
    rewrite Hno. unfold int_of_float. f_equal.
    destruct (Z.leb_spec 0 (l - 52 + j)) as [Hu|Hu].
    + rewrite <- Hval by lia. f_equal. f_equal. lia.
    + replace (52 - l) with (j + (- (l - 52 + j))) by lia.
      rewrite Z.pow_add_r by lia. rewrite Z.mul_assoc.
      apply Z.div_mul. apply Z.pow_nonzero; lia.
Qed.

Lemma span_digits_all ds : forallb is_digit ds = true -> span_digits ds = (ds, []).
Proof.
  induction ds as [|d ds IH]; simpl; [ reflexivity | ].
  intros H. apply andb_prop in H as [Hd Hds]. rewrite Hd, (IH Hds). reflexivity.
Qed.

Lemma float_of_digits ds :
  ds <> [] -> forallb is_digit ds = true ->
  float_of_str (str ds) = Ret (round_double (digits_value ds) 1).
Proof.
  intros Hne Hds. unfold float_of_str, parse_decimal.
  rewrite chars_str, (span_digits_all ds Hds).
  destruct ds as [|d ds]; [ congruence | ]. rewrite app_nil_r. reflexivity.
Qed.

Lemma unit_letter u k :
  unit_exponent u = Some k ->
  (u = "K"%char /\ k = 1) \/ (u = "k"%char /\ k = 1) \/ (u = "M"%char /\ k = 2) \/ (u = "m"%char /\ k = 2)
  \/ (u = "G"%char /\ k = 3) \/ (u = "g"%char /\ k = 3) \/ (u = "T"%char /\ k = 4) \/ (u = "t"%char /\ k = 4).
Proof.
  destruct u as [[] [] [] [] [] [] [] []]; vm_compute; intros H;
    first [ discriminate H | injection H as <-; tauto ].
Qed.

(** The parser's choice among the five results, by the unit text. *)
Ltac settle_unit v :=
  let r0 := fresh "r0" in let rK := fresh "rK" in let rM := fresh "rM" in
  let rG := fresh "rG" in let rT := fresh "rT" in
  remember (int_of_float v) as r0 eqn:E0;
  remember (int_of_float (float_mul_pow2 v 10)) as rK eqn:EK;
  remember (int_of_float (float_mul_pow2 v 20)) as rM eqn:EM;
  remember (int_of_float (float_mul_pow2 v 30)) as rG eqn:EG;
  remember (int_of_float (float_mul_pow2 v 40)) as rT eqn:ET;
  cbv; reflexivity.

(** The two readings of a token with a unit: with the trailing "B" the
    unit scales the number, without it the unit is dropped. *)
Lemma human_to_bytes_token tok v u k tail :
  tok <> [] ->
  forallb (in_class c_num) tok = true ->
  float_of_str (str tok) = Ret v ->
  unit_exponent u = Some k ->
  In tail unit_tails ->
  human_to_bytes (str (tok ++ u :: chars tail)) = int_of_float (float_mul_pow2 v (10 * k))
  /\ human_to_bytes (str (tok ++ [u])) = int_of_float v.
Proof.
  intros Hne Htok Hf Hu Htail.
  assert (Hnonempty : forall rest, String.eqb (str (tok ++ rest)) "" = false)
    by (intros rest; destruct tok; [ congruence | reflexivity ]).
  unfold human_to_bytes, search. rewrite !Hnonempty, !chars_str.
  apply unit_letter in Hu.
  simpl in Htail.
  split.
  - decompose [or and] Hu; subst u k;
    decompose [or] Htail; try contradiction; subst tail;
    (erewrite unit_re_on_token;
     [ | exact Hne | exact Htok | reflexivity | cbv; reflexivity ]).
    all: change (group _ 1%nat) with (Some (str tok)); cbn [default from_option id];
      rewrite Hf; cbn [bind_res].
    all: match goal with
         | |- _ = int_of_float (float_mul_pow2 _ ?j) =>
             let j' := eval compute in j in change j with j'
         end.
    all: settle_unit v.
  - clear Htail. decompose [or and] Hu; subst u k;
    (erewrite unit_re_on_token;
     [ | exact Hne | exact Htok | reflexivity | cbv; reflexivity ]).
    all: change (group _ 1%nat) with (Some (str tok)); cbn [default from_option id];
      rewrite Hf; cbn [bind_res].
    all: settle_unit v.
Qed.

(** C4, as the code has it.  A token made of a decimal number [tok], a
    unit letter K, M, G or T and a trailing "iB" or "B", in either case,
    gives [int(float(tok) * 1024**k)]; a unit letter with no "B" after it
    is not taken as a unit, and the token gives [int(float(tok))].  For a
    whole number below [2^53] these are the number times [1024^k], and the
    number itself. *)
Theorem human_to_bytes_unit tok v u k tail :
  tok <> [] ->
  forallb (in_class c_num) tok = true ->
  float_of_str (str tok) = Ret v ->
  unit_exponent u = Some k ->
  In tail unit_tails ->
  human_to_bytes (str (tok ++ u :: chars tail)) = int_of_float (float_mul_pow2 v (10 * k))
  /\ human_to_bytes (str (tok ++ [u])) = int_of_float v
  /\ (forallb is_digit tok = true -> digits_value tok < 2 ^ 53 ->
      human_to_bytes (str (tok ++ u :: chars tail)) = Ret (digits_value tok * 1024 ^ k)
      /\ human_to_bytes (str (tok ++ [u])) = Ret (digits_value tok)).
Proof.
  intros Hne Htok Hf Hu Htail.
  destruct (human_to_bytes_token tok v u k tail Hne Htok Hf Hu Htail) as [H1 H2].
  split; [ exact H1 | ]. split; [ exact H2 | ].
  intros Hds Hlt. rewrite H1, H2.
  pose proof (digits_value_nonneg tok Hds) as H0.
  rewrite (float_of_digits tok Hne Hds) in Hf. injection Hf as <-.
  split; [ | apply int_of_round_whole; lia ].
  apply unit_letter in Hu.
  decompose [or and] Hu; subst u k;
    rewrite int_of_scaled_whole by lia; reflexivity.
Qed.

(** C4, as the claim states it, fails: "1K" has a unit letter with no
    trailing "B", and the parser returns 1 for it, not 1024. *)
Lemma bare_unit_letter_not_scaled :
  human_to_bytes "1K" = Ret 1 /\ human_to_bytes "1K" <> Ret (1 * 1024).
Proof. split; [ vm_compute; reflexivity | vm_compute; discriminate ]. Qed.

Example human_to_bytes_samples :
  human_to_bytes "0" = Ret 0
  /\ human_to_bytes "1KiB" = Ret 1024
  /\ human_to_bytes "2MiB" = Ret (2 * 1024 * 1024)
  /\ human_to_bytes "1.5MiB" = Ret 1572864
  /\ human_to_bytes "0.1KiB" = Ret 102
  /\ human_to_bytes "" = Ret 0
  /\ human_to_bytes "garbage" = Ret 0.
Proof. vm_compute. repeat split. Qed.

(** *** Where the pattern finds nothing *)









(** C5.  The parser raises on a token whose digits and dots are not a
    number: [float] rejects group 1 of [UNIT_RE], and nothing in
    [human_to_bytes] catches it; the [try] of the function only guards
    [int(s)] on the path where the pattern found nothing. *)
Theorem human_to_bytes_raises :
  human_to_bytes "." = Raise (ValueError "could not convert string to float: '.'")
  /\ human_to_bytes "1.2.3MiB"
     = Raise (ValueError "could not convert string to float: '1.2.3'").
Proof. vm_compute. split; reflexivity. Qed.

(** ** The progress parser *)

Lemma lit_bracket c : Ascii.eqb "[" c = false -> lit_match "[" c = false.
Proof.
  destruct c as [[] [] [] [] [] [] [] []]; intros H;
    first [ discriminate H | reflexivity ].
Qed.

(** A line without an opening bracket has no progress marker. *)
Lemma no_bracket_unmatched line :
  existsb (Ascii.eqb "[") (chars line) = false -> search PROGRESS_RE line = None.
Proof.
  unfold search. induction (chars line) as [|c s IH]; [ reflexivity | ].
  cbn [existsb]. intros H. apply orb_false_elim in H as [Hc Hs].
  cbn [search_chars]. rewrite (IH Hs).
  unfold PROGRESS_RE, seqs. cbn [fold_right match_from].
  rewrite (lit_bracket c Hc). reflexivity.
Qed.

Lemma parse_progress_unmatched line st :
  search PROGRESS_RE line = None ->
  let t := self st in
  let t' := self (exec (_parse_progress line) st) in
  gid t' = gid t /\ have_bytes t' = have_bytes t /\ total_bytes t' = total_bytes t
  /\ progress t' = progress t /\ connections t' = connections t
  /\ dl_speed t' = dl_speed t /\ eta t' = eta t.
Proof.
  intros H. unfold exec, _parse_progress. rewrite H.
  cbv beta iota zeta delta [bind ret].
  destruct (existsb _ _); simpl; repeat split.
Qed.

(** C6.  On the sample marker line the progress parser sets the gid, the
    byte counts, the percentage, the connection count, the speed and the
    ETA of any task to the values of the line; on a line [PROGRESS_RE]
    does not match it leaves all seven as they were. *)
Theorem parse_progress_marker st :
  (let t' := self (exec (_parse_progress marker_line) st) in
   gid t' = Some "a1b2"%string
   /\ have_bytes t' = 10 * 1024 * 1024
   /\ total_bytes t' = 100 * 1024 * 1024
   /\ progress t' = 10
   /\ connections t' = 4
   /\ dl_speed t' = "1.5MiB"%string
   /\ eta t' = "1m0s"%string)
  /\ (forall line, search PROGRESS_RE line = None ->
      let t := self st in
      let t' := self (exec (_parse_progress line) st) in
      gid t' = gid t /\ have_bytes t' = have_bytes t /\ total_bytes t' = total_bytes t
      /\ progress t' = progress t /\ connections t' = connections t
      /\ dl_speed t' = dl_speed t /\ eta t' = eta t).
Proof.
  split; [ | intros line H; apply parse_progress_unmatched; exact H ].
  vm_compute. repeat split.
Qed.

(** ** The theorems at the sample data *)

Lemma exit_code_not_classified_witness :
  process (self sample_state) = None
  /\ process (self started_state) = Some 0%nat
  /\ (let st2 := exec (_read_output [] 0) started_state in
      poll (os st2) 0 = Some 0
      /\ status (self st2) = "Downloading..."%string
      /\ log_lines (self st2) = log_lines (self started_state)).
Proof.
  split; [ reflexivity | ]. split; [ vm_compute; reflexivity | ].
  apply (exit_code_not_classified plain_shlex "aria2c" sample_state 0 0);
    vm_compute; reflexivity.
Defined.

Lemma pause_resume_spawns_once_witness :
  process (self sample_state) = None
  /\ process (self started_state) = Some 0%nat
  /\ spawns (os (run plain_shlex
                   [EvStart "aria2c"; EvPause; EvResume "aria2c"] sample_state)) = 1%nat
  /\ spawns (os (run plain_shlex
                   [EvStart "aria2c"; EvPause; EvExit 0 7; EvResume "aria2c"]
                   sample_state)) = 1%nat.
Proof.
  split; [ reflexivity | ]. split; [ vm_compute; reflexivity | ].
  apply (pause_resume_spawns_once plain_shlex "aria2c" sample_state 0 7);
    vm_compute; reflexivity.
Defined.

Lemma started_task_is_deleted_witness :
  let a1 := snd (_start_task plain_shlex sample_app) in
  process <$> tasks a1 !! 0%nat = Some (Some 0%nat)
  /\ status <$> tasks a1 !! 0%nat = Some "Downloading..."%string
  /\ poll (world a1) 0 = None
  /\ fst (_delete_task a1) = Ret tt
  /\ tasks (snd (_delete_task a1)) = delete 0%nat (tasks a1)
  /\ length (tasks (snd (_delete_task a1))) = 0%nat.
Proof.
  split; [ vm_compute; reflexivity | ].
  apply (started_task_is_deleted plain_shlex sample_app 0 sample_task 0);
    vm_compute; reflexivity.
Defined.

Lemma human_to_bytes_unit_witness :
  human_to_bytes "2MiB" = Ret (2 * 1024 ^ 2) /\ human_to_bytes "2M" = Ret 2.
Proof.
  destruct (human_to_bytes_unit ["2"%char] (round_double 2 1) "M" 2 "iB")
    as (_ & _ & H).
  - discriminate.
  - reflexivity.
  - reflexivity.
  - reflexivity.
  - simpl. auto.
  - apply H; reflexivity.
Defined.

Lemma parse_progress_marker_witness :
  search PROGRESS_RE "download complete" = None
  /\ (let t' := self (exec (_parse_progress "download complete") started_state) in
      gid t' = None /\ have_bytes t' = 0 /\ total_bytes t' = 0
      /\ progress t' = 0 /\ connections t' = 0
      /\ dl_speed t' = ""%string /\ eta t' = ""%string).
Proof.
  split; [ vm_compute; reflexivity | ].
  apply (proj2 (parse_progress_marker started_state) "download complete").
  vm_compute. reflexivity.
Defined.

Lemma build_command_split_default_witness :
  options (self sample_state) !! "split" = Some (VInt 4)
  /\ options (self sample_state) !! "max-connection-per-server" = None
  /\ exists cmd,
       fst (build_command plain_shlex "aria2c" sample_state) = Ret cmd
       /\ In "--split=4"%string cmd
       /\ In "--max-connection-per-server=4"%string cmd.
Proof.
  assert (H1 : options (self sample_state) !! "split" = Some (VInt 4))
    by (vm_compute; reflexivity).
  assert (H2 : options (self sample_state) !! "max-connection-per-server" = None)
    by (vm_compute; reflexivity).
  split; [ exact H1 | ]. split; [ exact H2 | ].
  destruct (build_command_split_default plain_shlex "aria2c" sample_state H1 H2)
    as [Hin Hret].
  destruct Hret as [cmd Hcmd]; try (vm_compute; reflexivity).
  exists cmd. split; [ exact Hcmd | apply Hin; exact Hcmd ].
Defined.

Lemma resume_refuses_or_restarts_witness :
  let done := {| self := set_status "Completed" (self started_state);
                 os := os started_state |} in
  resume plain_shlex "aria2c" done
    = log "Task already completed, no need to resume" done
  /\ spawns (os (exec (resume plain_shlex "aria2c") done)) = 1%nat.
Proof.
  intros done.
  apply (proj1 (resume_refuses_or_restarts plain_shlex "aria2c" done)).
  reflexivity.
Defined.

Lemma process_handle_never_reset_witness :
  process (self started_state) = Some 0%nat
  /\ (let st' := run plain_shlex
                   [EvPause; EvExit 0 7; EvResume "aria2c"; EvReadFinish 0]
                   started_state in
      process (self st') = Some 0%nat
      /\ start plain_shlex "aria2c" st' = log "Task is already in progress." st'
      /\ spawns (os (exec (start plain_shlex "aria2c") st')) = spawns (os st')
      /\ spawns (os st') = spawns (os started_state)).
Proof.
  split; [ vm_compute; reflexivity | ].
  apply (process_handle_never_reset plain_shlex
           [EvPause; EvExit 0 7; EvResume "aria2c"; EvReadFinish 0]
           started_state 0 "aria2c").
  vm_compute. reflexivity.
Defined.

(** * Further properties of the module *)

(** ** Relations kept by every step of the lifecycle *)

(** ** The methods under a relation kept by their primitive steps

    Each lemma of the section asks of the relation only what the method it
    is about uses. *)
Section Kept.
Variable R : St -> St -> Prop.
Hypothesis R_refl : forall st, R st st.
Hypothesis R_trans : forall a b c, R a b -> R b c -> R a c.
Hypothesis K_os : forall f, preserves R (modify_os f).
Hypothesis K_log : forall msg, preserves R (log msg).
Hypothesis K_status :
  forall s, In s ["Downloading..."; "Error"; "Paused"; "Stopped"; "Completed"]%string ->
  preserves R (modify_self (set_status s)).
Hypothesis K_flag_set : preserves R (modify_self (set_stop_flag true)).
Hypothesis K_flag_clear : preserves R (modify_self (set_stop_flag false)).
Hypothesis K_process : forall h, preserves R (modify_self (set_process (Some h))).
Hypothesis K_thread : forall h, preserves R (modify_self (set_stdout_thread (Some h))).
Hypothesis K_options :
  preserves R (modify_self (fun t =>
    set_options (<["continue" := VBool true]> (options t)) t)).
Hypothesis K_gid : forall g, preserves R (modify_self (set_gid g)).
Hypothesis K_progress : forall n, preserves R (modify_self (set_progress n)).
Hypothesis K_connections : forall n, preserves R (modify_self (set_connections n)).
Hypothesis K_dl_speed : forall v, preserves R (modify_self (set_dl_speed v)).
Hypothesis K_eta : forall v, preserves R (modify_self (set_eta v)).
Hypothesis K_have : forall n, preserves R (modify_self (set_have_bytes n)).
Hypothesis K_total : forall n, preserves R (modify_self (set_total_bytes n)).

Ltac kept :=
  repeat (first [ assumption
                | solve [ apply K_status; simpl; tauto ]
                | solve [ auto ]
                | preserve_step R_refl R_trans ]).

Lemma kept_makedirs path : preserves R (makedirs path).
Proof. unfold makedirs. kept. Qed.

Lemma kept_terminate h : preserves R (terminate h).
Proof. unfold terminate. kept. Qed.

Lemma kept_wait h c : preserves R (wait h c).
Proof. unfold wait. kept. Qed.

Lemma kept_Popen cmd : preserves R (Popen cmd).
Proof. unfold Popen. kept. Qed.

Lemma kept_parse_progress line : preserves R (_parse_progress line).
Proof. unfold _parse_progress. kept. Qed.

Lemma kept_read_line line : preserves R (read_line line).
Proof. pose proof kept_parse_progress. unfold read_line. kept. Qed.

Lemma kept_read_lines lines : preserves R (read_lines lines).
Proof. pose proof kept_read_line. induction lines; simpl; kept. Qed.

Lemma kept_read_finish code : preserves R (read_finish code).
Proof. pose proof kept_wait. unfold read_finish. kept. Qed.

Lemma kept_read_output lines code : preserves R (_read_output lines code).
Proof.
  pose proof kept_read_lines. pose proof kept_read_finish.
  unfold _read_output. kept.
Qed.

Lemma kept_pause : preserves R pause.
Proof.
  pose proof kept_terminate.
  intros st. unfold pause. destruct (live_process st); to_preserves; kept.
Qed.

Lemma kept_stop : preserves R stop.
Proof.
  pose proof kept_terminate.
  unfold stop. apply (preserves_bind _ R_trans); [ | intros; kept ].
  intros st. destruct (live_process st); to_preserves; kept.
Qed.

Variable shlex_split : string -> res (list string).

Lemma kept_build_command p : preserves R (build_command shlex_split p).
Proof. pose proof kept_makedirs. unfold build_command. kept. Qed.

Lemma kept_start p : preserves R (start shlex_split p).
Proof.
  pose proof kept_build_command. pose proof kept_Popen.
  unfold start. kept.
Qed.

Lemma kept_resume p : preserves R (resume shlex_split p).
Proof.
  pose proof kept_start.
  intros st. unfold resume.
  destruct (String.eqb _ _); [ to_preserves; kept | ].
  destruct (live_process st); to_preserves; kept.
Qed.

Lemma kept_step ev st : R st (step shlex_split ev st).
Proof.
  destruct ev as [aria2_path| | |aria2_path|line|rc|lines rc|child rc|po te mk|now];
    simpl; unfold exec.
  - apply kept_start.
  - apply kept_pause.
  - apply kept_stop.
  - apply kept_resume.
  - apply kept_read_line.
  - apply kept_read_finish.
  - apply kept_read_output.
  - apply K_os.
  - apply K_os.
  - apply K_os.
Qed.

Lemma kept_run evs st : R st (run shlex_split evs st).
Proof.
  revert st. induction evs as [|ev evs IH]; intros st; simpl.
  - apply R_refl.
  - eapply R_trans; [ apply kept_step | apply IH ].
Qed.
End Kept.


(** Discharges the facts about the primitive steps for a relation that
    only reads fields of the task which the step leaves alone. *)
Ltac untouched rel :=
  solve [ intros; intros ?st; unfold rel; simpl; try reflexivity; auto ].

Lemma log_grows_refl st : log_grows st st.
Proof. unfold log_grows. reflexivity. Qed.

Lemma log_grows_trans a b c : log_grows a b -> log_grows b c -> log_grows a c.
Proof. unfold log_grows. intros H1 H2. etransitivity; eassumption. Qed.

Lemma log_grows_log msg : preserves log_grows (log msg).
Proof. intros st. unfold log_grows. simpl. apply prefix_app_r. reflexivity. Qed.

(** X6.  The log of a task is append-only: whatever the task's methods,
    its reader and the environment do, the log before is a prefix of the
    log after. *)
Theorem log_append_only (shlex_split : string -> res (list string)) evs st :
  log_lines (self st) `prefix_of` log_lines (self (run shlex_split evs st)).
Proof.
  apply (kept_run log_grows log_grows_refl log_grows_trans);
    first [ apply log_grows_log | untouched log_grows ].
Qed.

Lemma status_stays_valid_refl st : status_stays_valid st st.
Proof. intros H. exact H. Qed.

Lemma status_stays_valid_trans a b c :
  status_stays_valid a b -> status_stays_valid b c -> status_stays_valid a c.
Proof. unfold status_stays_valid. auto. Qed.

(** X7.  The status of a task stays among the six values the module
    assigns, whatever happens to the task. *)
Theorem status_always_valid (shlex_split : string -> res (list string)) evs st :
  In (status (self st)) status_values ->
  In (status (self (run shlex_split evs st))) status_values.
Proof.
  apply (kept_run status_stays_valid status_stays_valid_refl status_stays_valid_trans);
    try (untouched status_stays_valid).
  intros s Hs st' _. simpl in *. unfold status_values. simpl. tauto.
Qed.

Lemma status_always_valid_witness :
  In (status (self sample_state)) status_values
  /\ In (status (self (run plain_shlex
           [EvStart "aria2c"; EvReadLine "download completed"; EvStop] sample_state)))
        status_values.
Proof.
  assert (H : In (status (self sample_state)) status_values)
    by (simpl; auto).
  split; [ exact H | ].
  apply (status_always_valid plain_shlex _ sample_state H).
Defined.


(** *** After the stop flag is raised *)

Section Flagged.
Variable shlex_split : string -> res (list string).

Lemma read_line_flagged line st :
  _stop_flag (self st) = true -> read_line line st = (Ret false, st).
Proof.
  intros H. unfold read_line. cbv beta iota zeta delta [bind get_self].
  rewrite H. reflexivity.
Qed.

Lemma read_lines_flagged lines st :
  _stop_flag (self st) = true -> read_lines lines st = (Ret tt, st).
Proof.
  intros H. destruct lines as [|line rest]; [ reflexivity | ].
  cbn [read_lines]. unfold bind. rewrite (read_line_flagged line st H). reflexivity.
Qed.

Lemma read_finish_flagged code st :
  _stop_flag (self st) = true -> self (exec (read_finish code) st) = self st.
Proof.
  intros H. unfold exec, read_finish.
  cbv beta iota zeta delta [bind get_self wait modify_os ret].
  destruct (process (self st)); simpl; rewrite H, andb_false_r; reflexivity.
Qed.

Lemma read_output_flagged lines code st :
  _stop_flag (self st) = true ->
  self (exec (_read_output lines code) st) = self st.
Proof.
  intros H. unfold exec, _read_output.
  cbv beta iota zeta delta [bind get_self].
  destruct (process (self st)); [ | reflexivity ].
  rewrite (read_lines_flagged lines st H).
  apply (read_finish_flagged code st H).
Qed.

(** X11.  With the stop flag raised, the reader drops whatever the child
    still prints and leaves the status alone: [_read_output] changes
    nothing in the task, whatever the lines and the exit code. *)
Theorem reader_silent_after_stop lines code st :
  _stop_flag (self st) = true ->
  self (exec (_read_output lines code) st) = self st.
Proof. apply read_output_flagged. Qed.

Lemma frozen_refl st : frozen st st.
Proof. split; auto. Qed.

Lemma frozen_trans a b c : frozen a b -> frozen b c -> frozen a c.
Proof. unfold frozen. intros [F1 V1] [F2 V2]. split; [ auto | congruence ]. Qed.

Lemma frozen_same_self a b : self b = self a -> frozen a b.
Proof. intros E. unfold frozen. rewrite E. split; auto. Qed.

Lemma frozen_log msg : preserves frozen (log msg).
Proof. intros st. split; auto. Qed.

Lemma step_frozen ev st h :
  process (self st) = Some h ->
  _stop_flag (self st) = true ->
  frozen st (step shlex_split ev st).
Proof.
  intros Hp Hf.
  destruct ev as [aria2_path| | |aria2_path|line|rc|lines rc|child rc|po te mk|now];
    simpl; unfold exec.
  - rewrite (start_already shlex_split _ st h Hp). apply frozen_log.
  - apply (kept_pause frozen frozen_refl frozen_trans);
      first [ apply frozen_log | untouched frozen ].
  - apply (kept_stop frozen frozen_refl frozen_trans);
      first [ apply frozen_log | untouched frozen ].
  - unfold resume.
    destruct (String.eqb _ _); [ apply frozen_log | ].
    destruct (live_process st); [ apply frozen_log | ].
    cbv beta iota zeta delta [bind]. rewrite log_state.
    cbv beta iota zeta delta [modify_self].
    match goal with
    | |- context [start shlex_split aria2_path ?s] =>
        rewrite (start_already shlex_split aria2_path s h) by exact Hp
    end.
    rewrite log_state. split; auto.
  - rewrite (read_line_flagged line st Hf). apply frozen_refl.
  - apply frozen_same_self. apply (read_finish_flagged rc st Hf).
  - apply frozen_same_self. apply (read_output_flagged lines rc st Hf).
  - apply frozen_same_self. reflexivity.
  - apply frozen_same_self. reflexivity.
  - apply frozen_same_self. reflexivity.
Qed.

(** X12.  Once a task holds a process handle and its stop flag is raised
    (after [pause] or [stop]), nothing clears the flag again and nothing
    changes the gid, the percentage, the byte counts, the speed, the ETA
    or the connection count, whatever is called later. *)
Theorem progress_frozen_after_stop evs st h :
  process (self st) = Some h ->
  _stop_flag (self st) = true ->
  let st' := run shlex_split evs st in
  _stop_flag (self st') = true /\ progress_view (self st') = progress_view (self st).
Proof.
  revert st. induction evs as [|ev evs IH]; intros st Hp Hf; simpl.
  - split; [ exact Hf | reflexivity ].
  - destruct (step_frozen ev st h Hp Hf) as [F V].
    destruct (step_when_set shlex_split ev st h Hp) as [Hp' _].
    unfold same_process in Hp'. rewrite Hp in Hp'.
    destruct (IH (step shlex_split ev st) Hp' (F Hf)) as [F' V'].
    split; [ exact F' | ]. simpl in V'. rewrite V'. exact V.
Qed.
End Flagged.

Lemma reader_silent_after_stop_witness :
  let st := exec pause started_state in
  _stop_flag (self st) = true
  /\ self (exec (_read_output [marker_line; "download completed"] 0) st) = self st.
Proof.
  intros st.
  assert (H : _stop_flag (self st) = true) by (vm_compute; reflexivity).
  split; [ exact H | ].
  apply (reader_silent_after_stop [marker_line; "download completed"] 0 st H).
Defined.

Lemma progress_frozen_after_stop_witness :
  let st := exec pause started_state in
  process (self st) = Some 0%nat
  /\ _stop_flag (self st) = true
  /\ (let st' := run plain_shlex
                   [EvReadLine marker_line; EvExit 0 7; EvResume "aria2c";
                    EvReadOutput [marker_line] 7] st in
      _stop_flag (self st') = true
      /\ progress_view (self st') = progress_view (self st)).
Proof.
  intros st.
  assert (Hp : process (self st) = Some 0%nat) by (vm_compute; reflexivity).
  assert (Hf : _stop_flag (self st) = true) by (vm_compute; reflexivity).
  split; [ exact Hp | ]. split; [ exact Hf | ].
  apply (progress_frozen_after_stop plain_shlex _ st 0%nat Hp Hf).
Defined.


(** *** The outcomes of [start] *)

Section StartOutcomes.
Variable shlex_split : string -> res (list string).

Lemma set_dirs_same w : set_dirs (dirs w) w = w.
Proof. destruct w. reflexivity. Qed.

Lemma dirs_only_refl st : dirs_only st st.
Proof. split; [ reflexivity | ]. exists (dirs (os st)). symmetry. apply set_dirs_same. Qed.

Lemma dirs_only_trans a b c : dirs_only a b -> dirs_only b c -> dirs_only a c.
Proof.
  intros [S1 [d1 E1]] [S2 [d2 E2]]. split; [ congruence | ].
  exists d2. rewrite E2, E1. reflexivity.
Qed.

Lemma makedirs_dirs_only path : preserves dirs_only (makedirs path).
Proof.
  intros st. unfold makedirs. cbv beta iota zeta delta [bind get_os].
  destruct (makedirs_error (os st)); simpl.
  - apply dirs_only_refl.
  - split; [ reflexivity | ]. eexists. reflexivity.
Qed.

(** [build_command] leaves the task as it is and changes nothing in the
    world but the directories. *)
Lemma build_command_dirs_only p : preserves dirs_only (build_command shlex_split p).
Proof.
  pose proof makedirs_dirs_only.
  unfold build_command. preserve dirs_only_refl dirs_only_trans.
Qed.

Lemma start_raises p st e st1 :
  process (self st) = None ->
  build_command shlex_split p st = (Raise e, st1) ->
  start shlex_split p st = (Raise e, st1).
Proof.
  intros Hn Hb. unfold start. cbv beta iota zeta delta [bind get_self].
  rewrite Hn, Hb. reflexivity.
Qed.

Lemma start_popen_fails p st cmd st1 e :
  process (self st) = None ->
  build_command shlex_split p st = (Ret cmd, st1) ->
  popen_error (os st1) = Some e ->
  start shlex_split p st =
  (Ret tt,
   {| self := set_status "Error"
        (set_log_lines
           (log_lines (self st1)
            ++ [log_entry (os st1) ("Start command: " +:+ join " " cmd)]
            ++ [log_entry (os st1) ("Failed to start: " +:+ exn_msg e)])
           (self st1));
      os := os st1 |}).
Proof.
  intros Hn Hb Hpo. unfold start. cbv beta iota zeta delta [bind get_self].
  rewrite Hn, Hb. rewrite log_state.
  cbv beta iota zeta delta [try_except Popen bind get_os]. simpl.
  rewrite Hpo. simpl. rewrite <- app_assoc. reflexivity.
Qed.

Lemma start_popen_ok p st cmd st1 :
  process (self st) = None ->
  build_command shlex_split p st = (Ret cmd, st1) ->
  popen_error (os st1) = None ->
  let h := length (procs (os st1)) in
  start shlex_split p st =
  (Ret tt,
   {| self := set_stdout_thread (Some h)
        (set_stop_flag false
           (set_status "Downloading..."
              (set_process (Some h)
                 (set_log_lines
                    (log_lines (self st1)
                     ++ [log_entry (os st1) ("Start command: " +:+ join " " cmd)])
                    (self st1)))));
      os := set_procs
              (procs (os st1)
               ++ [{| argv := cmd; returncode := None; signalled := false |}])
              (os st1) |}).
Proof.
  intros Hn Hb Hpo h. unfold start. cbv beta iota zeta delta [bind get_self].
  rewrite Hn, Hb. rewrite log_state.
  cbv beta iota zeta delta [try_except Popen bind get_os]. simpl.
  rewrite Hpo. reflexivity.
Qed.

(** The three ways a [start] on a task without a process handle ends. *)
Lemma start_outcomes p st :
  process (self st) = None ->
  let st' := exec (start shlex_split p) st in
  (exists e, fst (start shlex_split p st) = Raise e
     /\ fst (build_command shlex_split p st) = Raise e
     /\ self st' = self st /\ procs (os st') = procs (os st))
  \/ (exists cmd e, fst (build_command shlex_split p st) = Ret cmd
        /\ popen_error (os st) = Some e
        /\ fst (start shlex_split p st) = Ret tt
        /\ status (self st') = "Error"%string
        /\ process (self st') = None
        /\ procs (os st') = procs (os st)
        /\ log_lines (self st')
           = log_lines (self st)
             ++ [log_entry (os st) ("Start command: " +:+ join " " cmd);
                 log_entry (os st) ("Failed to start: " +:+ exn_msg e)])
  \/ (exists cmd, fst (build_command shlex_split p st) = Ret cmd
        /\ popen_error (os st) = None
        /\ fst (start shlex_split p st) = Ret tt
        /\ process (self st') = Some (length (procs (os st)))
        /\ procs (os st')
           = procs (os st)
             ++ [{| argv := cmd; returncode := None; signalled := false |}]).
Proof.
  intros Hn st'.
  destruct (build_command_dirs_only p st) as [Hs [ds Ho]].
  unfold st', exec.
  destruct (build_command shlex_split p st) as [[cmd|e] st1] eqn:Hb; simpl in Hs, Ho.
  - destruct (popen_error (os st1)) as [e|] eqn:Hpo.
    + right. left. exists cmd, e.
      rewrite (start_popen_fails p st cmd st1 e Hn Hb Hpo). simpl.
      rewrite Ho in *. simpl in *. rewrite Hs.
      repeat split; auto.
    + right. right. exists cmd.
      rewrite (start_popen_ok p st cmd st1 Hn Hb Hpo). simpl.
      rewrite Ho in *. simpl in *. repeat split; auto.
  - left. exists e. rewrite (start_raises p st e st1 Hn Hb). simpl.
    rewrite Ho. simpl. repeat split; auto.
Qed.

(** X9.  When [build_command] raises (the output directory cannot be
    made, [split] is not a number, ...), [start] raises the same exception
    to its caller: the task keeps its status and its log, and no child is
    spawned. *)
Theorem start_propagates_build_error p st e :
  process (self st) = None ->
  fst (build_command shlex_split p st) = Raise e ->
  fst (start shlex_split p st) = Raise e
  /\ self (exec (start shlex_split p) st) = self st
  /\ procs (os (exec (start shlex_split p) st)) = procs (os st).
Proof.
  intros Hn Hb.
  destruct (build_command_dirs_only p st) as [Hs [ds Ho]].
  unfold exec.
  destruct (build_command shlex_split p st) as [[cmd|e'] st1] eqn:E;
    simpl in Hb, Hs, Ho; [ discriminate | ].
  injection Hb as ->.
  rewrite (start_raises p st e st1 Hn E). simpl. rewrite Ho.
  repeat split; auto.
Qed.

(** X10.  When [Popen] raises, [start] returns normally with the status
    ["Error"], no process handle and no child, and the log holds the
    command line followed by the failure. *)
Theorem start_spawn_failure p st cmd e :
  process (self st) = None ->
  fst (build_command shlex_split p st) = Ret cmd ->
  popen_error (os st) = Some e ->
  let st' := exec (start shlex_split p) st in
  fst (start shlex_split p st) = Ret tt
  /\ status (self st') = "Error"%string
  /\ process (self st') = None
  /\ procs (os st') = procs (os st)
  /\ log_lines (self st')
     = log_lines (self st)
       ++ [log_entry (os st) ("Start command: " +:+ join " " cmd);
           log_entry (os st) ("Failed to start: " +:+ exn_msg e)].
Proof.
  intros Hn Hb Hpo st'.
  destruct (start_outcomes p st Hn) as [(e' & _ & Hb' & _)|[H|(cmd' & _ & Hpo' & _)]].
  - congruence.
  - destruct H as (cmd' & e' & Hb' & Hpo' & H1 & H2 & H3 & H4 & H5).
    assert (cmd' = cmd) by congruence. assert (e' = e) by congruence. subst.
    repeat split; assumption.
  - congruence.
Qed.

Lemma live_process_none st : process (self st) = None -> live_process st = None.
Proof. intros H. unfold live_process. rewrite H. reflexivity. Qed.

Lemma start_from_none p st :
  process (self st) = None ->
  let st' := exec (start shlex_split p) st in
  (process (self st') = None /\ spawns (os st') = spawns (os st))
  \/ (exists h, process (self st') = Some h /\ spawns (os st') = S (spawns (os st))).
Proof.
  intros Hn st'.
  destruct (start_outcomes p st Hn)
    as [(e & _ & _ & Hs & Hp)|[(cmd & e & _ & _ & _ & _ & Hn' & Hp & _)|(cmd & _ & _ & _ & Hh & Hp)]];
    fold st' in Hs, Hp, Hn', Hh || fold st' in Hp, Hn' || fold st' in Hp, Hh || idtac.
  - left. unfold spawns. fold st' in Hs, Hp. rewrite Hs, Hp. auto.
  - left. unfold spawns. fold st' in Hn', Hp. rewrite Hp. auto.
  - right. eexists. fold st' in Hh, Hp. split; [ exact Hh | ].
    unfold spawns. rewrite Hp, length_app. simpl. lia.
Qed.

Lemma step_from_none ev st :
  process (self st) = None ->
  let st' := step shlex_split ev st in
  (process (self st') = None /\ spawns (os st') = spawns (os st))
  \/ (exists h, process (self st') = Some h /\ spawns (os st') = S (spawns (os st))).
Proof.
  intros Hn.
  assert (Hkeep : forall st', same_process st st' -> same_spawns st st' ->
            (process (self st') = None /\ spawns (os st') = spawns (os st))
            \/ (exists h, process (self st') = Some h
                          /\ spawns (os st') = S (spawns (os st)))).
  { intros st' Hp Hs. left. unfold same_process, same_spawns in *.
    rewrite Hp, Hs. auto. }
  destruct ev as [aria2_path| | |aria2_path|line|rc|lines rc|child rc|po te mk|now];
    simpl.
  - apply (start_from_none _ st Hn).
  - apply Hkeep; [ apply pause_same_process | apply pause_same_spawns ].
  - apply Hkeep; [ apply stop_same_process | apply stop_same_spawns ].
  - unfold exec, resume.
    destruct (String.eqb _ _);
      [ apply Hkeep; [ apply log_same_process | apply log_same_spawns ] | ].
    rewrite (live_process_none st Hn).
    cbv beta iota zeta delta [bind]. rewrite log_state.
    cbv beta iota zeta delta [modify_self].
    match goal with
    | |- context [start shlex_split aria2_path ?s] =>
        apply (start_from_none aria2_path s Hn)
    end.
  - apply Hkeep; [ apply read_line_same_process | apply read_line_same_spawns ].
  - apply Hkeep; [ apply read_finish_same_process | apply read_finish_same_spawns ].
  - apply Hkeep; [ apply read_output_same_process | apply read_output_same_spawns ].
  - left. split; [ exact Hn | ]. unfold spawns. simpl. apply length_alter.
  - left. split; [ exact Hn | reflexivity ].
  - left. split; [ exact Hn | reflexivity ].
Qed.

(** X8.  A task spawns at most one child in its life: over any sequence
    of method calls, reader steps and events of the environment the number
    of children never shrinks and grows by at most one. *)
Theorem at_most_one_spawn evs st :
  (spawns (os st) <= spawns (os (run shlex_split evs st)) <= S (spawns (os st)))%nat.
Proof.
  revert st. induction evs as [|ev evs IH]; intros st; simpl; [ lia | ].
  destruct (process (self st)) as [h|] eqn:Hp.
  - destruct (run_when_set shlex_split (ev :: evs) st h Hp) as [_ E].
    simpl in E. rewrite E. lia.
  - destruct (step_from_none ev st Hp) as [[Hn E]|[h [Hs E]]].
    + specialize (IH (step shlex_split ev st)). rewrite E in IH. exact IH.
    + destruct (run_when_set shlex_split evs _ h Hs) as [_ E'].
      rewrite E', E. lia.
Qed.
End StartOutcomes.


(** *** The argument vector *)

Section Vector.
Variable shlex_split : string -> res (list string).

Lemma flag_if_app b o key cmd : flag_if b o key cmd = cmd ++ flag_if b o key [].
Proof. unfold flag_if. destruct b; [ reflexivity | rewrite app_nil_r; reflexivity ]. Qed.

Lemma flag_chain o c0 :
  flag_if (has_truthy o "user-agent") o "user-agent"
    (flag_if (has_truthy o "referer") o "referer"
       (flag_if (has_truthy o "max-upload-limit") o "max-upload-limit"
          (flag_if (has_truthy o "max-download-limit") o "max-download-limit"
             (flag_if (bool_decide (is_Some (o !! "retry-wait"))) o "retry-wait"
                (flag_if (bool_decide (is_Some (o !! "max-tries"))) o "max-tries"
                   c0)))))
  = c0 ++ optional_flags o.
Proof.
  unfold optional_flags.
  rewrite (flag_if_app _ _ "user-agent" (flag_if _ _ _ _)).
  rewrite (flag_if_app _ _ "referer" (flag_if _ _ _ _)).
  rewrite (flag_if_app _ _ "max-upload-limit" (flag_if _ _ _ _)).
  rewrite (flag_if_app _ _ "max-download-limit" (flag_if _ _ _ _)).
  rewrite (flag_if_app _ _ "retry-wait" (flag_if _ _ _ _)).
  rewrite (flag_if_app _ _ "max-tries" c0).
  rewrite <- !app_assoc. reflexivity.
Qed.

(** The whole argument vector, in order. *)
Lemma build_command_vector_of p st cmd :
  fst (build_command shlex_split p st) = Ret cmd ->
  let t := self st in
  let o := options t in
  exists s c,
    int_of (get o "split" (VInt 4)) = Ret s
    /\ int_of (get o "max-connection-per-server" (VInt s)) = Ret c
    /\ cmd =
       [p]
       ++ (if truthy (get o "continue" (VBool true)) then ["-c"%string] else [])
       ++ ["--file-allocation=" +:+ format (get o "file-allocation" (VStr "none"));
           "--split=" +:+ str_of_int s;
           "--max-connection-per-server=" +:+ str_of_int c]
       ++ optional_flags o
       ++ header_flags o
       ++ ["--allow-overwrite=true"; "--auto-file-renaming=false"; "-d"; out_dir t]%string
       ++ (if String.eqb (out_name t) "" then [] else ["-o"%string; out_name t])
       ++ extra_tokens shlex_split o
       ++ [url t].
Proof.
  unfold build_command.
  cbv beta iota zeta delta [bind get_self get_os lift ret raise makedirs modify_os].
  intros H.
  destruct (int_of (get (options (self st)) "split" (VInt 4))) as [s|e] eqn:Es.
  2: { destruct (isdir _ _); [ | destruct (makedirs_error (os st)) ]; discriminate H. }
  destruct (int_of (get (options (self st)) "max-connection-per-server" (VInt s)))
    as [c|e] eqn:Ec.
  2: { destruct (isdir _ _); [ | destruct (makedirs_error (os st)) ]; discriminate H. }
  exists s, c. split; [ first [ reflexivity | exact Es ] | ].
  split; [ first [ reflexivity | exact Ec ] | ].
  rewrite flag_chain in H.
  unfold header_flags, extra_tokens.
  unfold has_truthy, get in H.
  revert H.
  destruct (isdir (os st) (out_dir (self st)));
    cbn beta iota;
    destruct (makedirs_error (os st));
    destruct (options (self st) !! "header") as [[[]|n|h]|];
    cbn [default from_option id truthy];
    try destruct (n =? 0); try destruct (String.eqb_spec h "");
    cbn [negb];
    destruct (options (self st) !! "extra_args") as [[[]|n'|a]|];
    cbn [default from_option id truthy];
    try destruct (n' =? 0); try destruct (String.eqb a "");
    cbn [negb];
    try destruct (shlex_split a);
    destruct (String.eqb (out_name (self st)) "");
    cbn [fst negb];
    intros H; first [ discriminate H | injection H as <- ];
    subst;
    destruct (truthy _);
    rewrite <- ?app_assoc; reflexivity.
Qed.

(** X16.  Whenever [build_command] returns, the vector is, in this order:
    the executable, ["-c"] when the ["continue"] option is true (or
    absent), the allocation, split and connection arguments, the optional
    arguments, the headers, the two fixed policy arguments, the directory
    and the file name, the extra tokens, and the URL last. *)
Theorem build_command_vector p st cmd :
  fst (build_command shlex_split p st) = Ret cmd ->
  let t := self st in
  let o := options t in
  exists s c,
    int_of (get o "split" (VInt 4)) = Ret s
    /\ int_of (get o "max-connection-per-server" (VInt s)) = Ret c
    /\ cmd =
       [p]
       ++ (if truthy (get o "continue" (VBool true)) then ["-c"%string] else [])
       ++ ["--file-allocation=" +:+ format (get o "file-allocation" (VStr "none"));
           "--split=" +:+ str_of_int s;
           "--max-connection-per-server=" +:+ str_of_int c]
       ++ optional_flags o
       ++ header_flags o
       ++ ["--allow-overwrite=true"; "--auto-file-renaming=false"; "-d"; out_dir t]%string
       ++ (if String.eqb (out_name t) "" then [] else ["-o"%string; out_name t])
       ++ extra_tokens shlex_split o
       ++ [url t].
Proof. apply build_command_vector_of. Qed.

(** [resume] on a task that holds no process handle spawns with ["-c"]. *)
Lemma resume_spawn p st h :
  process (self st) = None ->
  process (self (exec (resume shlex_split p) st)) = Some h ->
  exists cmd,
    argv <$> procs (os (exec (resume shlex_split p) st)) !! h = Some cmd
    /\ cmd !! 0%nat = Some p
    /\ cmd !! 1%nat = Some "-c"%string.
Proof.
  intros Hn. unfold exec, resume.
  destruct (String.eqb _ _); [ simpl; rewrite Hn; discriminate | ].
  rewrite (live_process_none st Hn).
  cbv beta iota zeta delta [bind]. rewrite log_state.
  cbv beta iota zeta delta [modify_self].
  match goal with
  | |- context [start shlex_split p ?s] => set (st2 := s)
  end.
  assert (Hn2 : process (self st2) = None) by exact Hn.
  intros Hh.
  destruct (start_outcomes shlex_split p st2 Hn2)
    as [(e & _ & _ & Hs & _)|[(cmd & e & _ & _ & _ & _ & Hn' & _)|(cmd & Hb & _ & _ & Hh' & Hp)]];
    unfold exec in *.
  - rewrite Hs, Hn2 in Hh. discriminate.
  - rewrite Hn' in Hh. discriminate.
  - exists cmd. rewrite Hh' in Hh. injection Hh as <-.
    rewrite Hp. rewrite lookup_app_r by apply Nat.le_refl.
    rewrite Nat.sub_diag. simpl.
    split; [ reflexivity | ].
    destruct (build_command_vector_of p st2 cmd Hb) as (s & c & _ & _ & E).
    assert (G : get (options (self st2)) "continue" (VBool true) = VBool true)
      by (unfold get; simpl; rewrite lookup_insert_eq; reflexivity).
    rewrite G in E. rewrite E. split; reflexivity.
Qed.

(** X15.  A [resume] that spawns a child (the first child of a task that
    was never started) passes ["-c"] right after the executable, whatever
    the ["continue"] option of the task said. *)
Theorem resume_spawns_with_continue p st h :
  process (self st) = None ->
  process (self (exec (resume shlex_split p) st)) = Some h ->
  exists cmd,
    argv <$> procs (os (exec (resume shlex_split p) st)) !! h = Some cmd
    /\ cmd !! 0%nat = Some p
    /\ cmd !! 1%nat = Some "-c"%string.
Proof. apply resume_spawn. Qed.
End Vector.


(** *** The task list *)

Section TaskList.
Variable shlex_split : string -> res (list string).






(** X18.  Two calls of [_delete_task] in a row remove at most one task:
    a deletion clears the selection, so the second call removes nothing. *)
Theorem delete_twice_removes_one a :
  let a1 := snd (_delete_task a) in
  let a2 := snd (_delete_task a1) in
  tasks a2 = tasks a1
  /\ (length (tasks a) <= S (length (tasks a2)))%nat.
Proof.
  unfold _delete_task.
  destruct (selected_task_index a) as [i|] eqn:Hi; simpl;
    [ | rewrite Hi; simpl; split; [ reflexivity | lia ] ].
  destruct (tasks a !! i) as [t|] eqn:Ht; simpl;
    [ | rewrite Hi, Ht; simpl; split; [ reflexivity | lia ] ].
  destruct (String.eqb (status t) "Downloading") eqn:Hs; simpl.
  - rewrite Hi, Ht, Hs. simpl. split; [ reflexivity | lia ].
  - split; [ reflexivity | ].
    rewrite length_delete by eauto. lia.
Qed.

Lemma stop_downloading_none ts w :
  Forall (fun t => status t <> "Downloading"%string) ts ->
  stop_downloading ts w = (ts, w).
Proof.
  induction 1 as [|t ts Ht _ IH]; simpl; [ reflexivity | ].
  apply String.eqb_neq in Ht. rewrite Ht, IH. reflexivity.
Qed.

(** X19.  [_quit_app] stops the tasks whose status is the string
    ["Downloading"] and no other: where no task has that status, it calls
    no [stop], sends no [terminate] and leaves every task and every child
    as it is. *)
Theorem quit_stops_nothing a :
  Forall (fun t => status t <> "Downloading"%string) (tasks a) ->
  tasks (_quit_app a) = tasks a /\ world (_quit_app a) = world a.
Proof.
  intros H. unfold _quit_app. rewrite (stop_downloading_none _ _ H). split; reflexivity.
Qed.
End TaskList.


Lemma quit_stops_nothing_witness :
  let a := snd (_start_task plain_shlex sample_app) in
  Forall (fun t => status t <> "Downloading"%string) (tasks a)
  /\ tasks (_quit_app a) = tasks a /\ world (_quit_app a) = world a
  /\ poll (world (_quit_app a)) 0 = None.
Proof.
  intros a.
  assert (H : Forall (fun t => status t <> "Downloading"%string) (tasks a))
    by (repeat constructor; vm_compute; discriminate).
  split; [ exact H | ].
  destruct (quit_stops_nothing a H) as [H1 H2].
  split; [ exact H1 | ]. split; [ exact H2 | ].
  rewrite H2. vm_compute. reflexivity.
Defined.


(** *** The progress parser and the reader on any line *)

Section Reader.

Lemma reading_refl st : reading st st.
Proof. unfold reading. repeat split; reflexivity. Qed.

Lemma reading_trans a b c : reading a b -> reading b c -> reading a c.
Proof.
  intros (O1 & F1 & L1) (O2 & F2 & L2). repeat split; try congruence.
  etransitivity; eassumption.
Qed.

Lemma reading_log msg : preserves reading (log msg).
Proof.
  intros st. unfold reading. simpl. repeat split; try reflexivity.
  apply prefix_app_r. reflexivity.
Qed.


(** The [try] block of [_parse_progress] and the keyword scan after it. *)
Lemma parse_progress_returns line st : fst (_parse_progress line st) = Ret tt.
Proof.
  unfold _parse_progress. unfold bind at 1.
  match goal with
  | |- context [match ?m st with _ => _ end] => destruct (m st) as [[[]|e] st1] eqn:E
  end.
  - destruct (existsb _ _); reflexivity.
  - exfalso. destruct (search PROGRESS_RE line); [ | discriminate E ].
    unfold try_except in E.
    match type of E with
    | context [match ?b st with _ => _ end] => destruct (b st) as [[[]|e'] st2]
    end; discriminate E.
Qed.

Lemma read_line_returns line st : exists b, fst (read_line line st) = Ret b.
Proof.
  unfold read_line. cbv beta iota zeta delta [bind get_self].
  destruct (_stop_flag (self st)); [ eexists; reflexivity | ].
  rewrite log_state.
  match goal with
  | |- context [_parse_progress ?l ?s'] =>
      pose proof (parse_progress_returns l s') as Hp;
      destruct (_parse_progress l s') as [[[]|e] s2]; simpl in Hp;
      [ eexists; reflexivity | discriminate Hp ]
  end.
Qed.

Lemma read_lines_returns lines st : fst (read_lines lines st) = Ret tt.
Proof.
  revert st. induction lines as [|l ls IH]; intros st; [ reflexivity | ].
  cbn [read_lines]. unfold bind.
  destruct (read_line_returns l st) as [b Hb].
  destruct (read_line l st) as [[b'|e] s1]; simpl in Hb; [ | discriminate Hb ].
  destruct b'; [ apply IH | reflexivity ].
Qed.

Lemma read_finish_returns code st : fst (read_finish code st) = Ret tt.
Proof.
  unfold read_finish.
  cbv beta iota zeta delta [bind get_self get_os wait modify_os modify_self ret log].
  destruct (process (self st)); simpl;
    destruct (String.eqb _ _ && negb _); simpl; try reflexivity;
    destruct (bool_decide _); reflexivity.
Qed.

(** With a process handle, [_read_output] is its loop followed by its
    final update. *)
Lemma read_output_steps lines code st h :
  process (self st) = Some h ->
  _read_output lines code st = read_finish code (exec (read_lines lines) st).
Proof.
  intros H. unfold _read_output, exec. cbv beta iota zeta delta [bind get_self].
  rewrite H. pose proof (read_lines_returns lines st) as Hr.
  destruct (read_lines lines st) as [[[]|e] s1]; simpl in Hr;
    [ reflexivity | discriminate Hr ].
Qed.

(** X21.  The reader never raises: whatever the child prints, a size
    token [float] rejects included, and whatever its exit code,
    [_read_output] returns normally. *)
Theorem reader_never_raises lines code st :
  fst (_read_output lines code st) = Ret tt.
Proof.
  destruct (process (self st)) as [h|] eqn:H.
  - rewrite (read_output_steps lines code st h H). apply read_finish_returns.
  - unfold _read_output. cbv beta iota zeta delta [bind get_self].
    rewrite H. reflexivity.
Qed.



Lemma same_status_refl st : same_status st st.
Proof. reflexivity. Qed.

Lemma same_status_trans a b c : same_status a b -> same_status b c -> same_status a c.
Proof. unfold same_status. congruence. Qed.

(** X4.  A line that holds "download complete", "completed" or "download
    finished", in any case, sets the status to ["Completed"], marker or
    not; any other line leaves the status as it is. *)
Theorem parse_progress_completion line st :
  status (self (exec (_parse_progress line) st))
  = if existsb (fun keyword => contains keyword (lower line)) completion_keywords
    then "Completed"%string
    else status (self st).
Proof.
  unfold exec, _parse_progress, completion_keywords. unfold bind at 1.
  match goal with
  | |- context [match ?m st with _ => _ end] =>
      assert (Hm : preserves same_status m);
      [ | specialize (Hm st); destruct (m st) as [[[]|e] st1] eqn:E ]
  end.
  - preserve same_status_refl same_status_trans.
  - unfold same_status in Hm. simpl in Hm.
    destruct (existsb _ _); simpl; [ reflexivity | exact Hm ].
  - exfalso. destruct (search PROGRESS_RE line); [ | discriminate E ].
    unfold try_except in E.
    match type of E with
    | context [match ?b st with _ => _ end] => destruct (b st) as [[[]|e'] st2]
    end; discriminate E.
Qed.

(** X5.  A marker line whose downloaded-size token [human_to_bytes]
    rejects still sets the gid, the percentage, the connection count, the
    speed and the ETA; the two byte counts stay as they were and the
    failure is logged. *)
Theorem parse_progress_bad_size line m st p c e :
  search PROGRESS_RE line = Some m ->
  int_of_str (default "" (group m 4)) = Ret p ->
  int_of_str (default "" (group m 5)) = Ret c ->
  human_to_bytes (default "" (group m 2)) = Raise e ->
  let t := self st in
  let t' := self (exec (_parse_progress line) st) in
  gid t' = Some (default "" (group m 1))
  /\ progress t' = p /\ connections t' = c
  /\ dl_speed t' = default "" (group m 6)
  /\ eta t' = strip (default "" (group m 7))
  /\ have_bytes t' = have_bytes t /\ total_bytes t' = total_bytes t
  /\ log_lines t'
     = log_lines t ++ [log_entry (os st) ("Failed to parse progress: " +:+ exn_msg e)].
Proof.
  intros Hs Hp Hc Hh. unfold exec, _parse_progress. rewrite Hs.
  cbv beta iota zeta delta [bind try_except lift modify_self].
  rewrite Hp, Hc, Hh. rewrite log_state.
  destruct (existsb _ _); simpl; repeat split; reflexivity.
Qed.
End Reader.


Lemma parse_progress_bad_size_witness :
  let line := "[#a1 ./100MiB(10%) CN:4 DL:1MiB ETA:1s]" in
  exists m,
    search PROGRESS_RE line = Some m
    /\ human_to_bytes (default "" (group m 2))
       = Raise (ValueError "could not convert string to float: '.'")
    /\ (let t' := self (exec (_parse_progress line) sample_state) in
        gid t' = Some "a1"%string
        /\ progress t' = 10 /\ connections t' = 4
        /\ have_bytes t' = 0 /\ total_bytes t' = 0
        /\ length (log_lines t') = 1%nat).
Proof.
  intros line.
  destruct (search PROGRESS_RE line) as [m|] eqn:Hs; [ | vm_compute in Hs; discriminate Hs ].
  exists m. split; [ reflexivity | ].
  assert (Hm : Some m = search PROGRESS_RE line) by (symmetry; exact Hs).
  vm_compute in Hm. injection Hm as ->.
  split; [ vm_compute; reflexivity | ].
  destruct (parse_progress_bad_size line _ sample_state 10 4
              (ValueError "could not convert string to float: '.'") Hs)
    as (H1 & H2 & H3 & _ & _ & H6 & H7 & H8);
    try (vm_compute; reflexivity).
  repeat split; try assumption.
  all: first [ rewrite H1; vm_compute; reflexivity | rewrite H8; reflexivity ].
Defined.


(** *** A task and the children of other tasks *)

Section Isolation.
Variable shlex_split : string -> res (list string).
Variable other : nat.

Local Abbreviation kept_entry := (entry_kept other).

Lemma kept_entry_refl st : kept_entry st st.
Proof. split; reflexivity. Qed.

Lemma kept_entry_trans a b c : kept_entry a b -> kept_entry b c -> kept_entry a c.
Proof. intros [L1 N1] [L2 N2]. split; congruence. Qed.

Lemma kept_entry_self f : preserves kept_entry (modify_self f).
Proof. intros st. split; reflexivity. Qed.

Lemma kept_entry_log msg : preserves kept_entry (log msg).
Proof. intros st. split; reflexivity. Qed.

Lemma kept_entry_terminate h : h <> other -> preserves kept_entry (terminate h).
Proof.
  intros Hne st. unfold terminate. cbv beta iota zeta delta [bind get_os].
  destruct (terminate_error (os st)); simpl; [ apply kept_entry_refl | ].
  split; simpl; [ apply list_lookup_alter_ne; exact Hne | apply length_alter ].
Qed.

Lemma live_process_handle st h : live_process st = Some h -> process (self st) = Some h.
Proof.
  unfold live_process. destruct (process (self st)) as [h'|]; [ | discriminate ].
  destruct (poll (os st) h'); [ discriminate | congruence ].
Qed.

Lemma pause_kept_entry st :
  process (self st) <> Some other -> kept_entry st (exec pause st).
Proof.
  intros Hne. unfold exec, pause.
  destruct (live_process st) as [h|] eqn:E; [ | apply kept_entry_refl ].
  assert (Hh : h <> other)
    by (intros ->; apply Hne; apply live_process_handle; exact E).
  pose proof (kept_entry_terminate h Hh).
  pose proof kept_entry_self. pose proof kept_entry_log.
  to_preserves. preserve kept_entry_refl kept_entry_trans.
Qed.

Lemma bind_at {A B} (R : St -> St -> Prop) (m : M A) (f : A -> M B) st :
  (forall a b c, R a b -> R b c -> R a c) ->
  R st (snd (m st)) -> (forall a, preserves R (f a)) ->
  R st (snd (bind m f st)).
Proof.
  intros Htrans Hm Hf. unfold bind.
  destruct (m st) as [[a|e] s1]; simpl in *; [ | exact Hm ].
  eapply Htrans; [ exact Hm | apply Hf ].
Qed.

Lemma stop_kept_entry st :
  process (self st) <> Some other -> kept_entry st (exec stop st).
Proof.
  intros Hne. unfold exec, stop.
  pose proof kept_entry_self as Hself. pose proof kept_entry_log as Hlog.
  apply (bind_at kept_entry _ _ st kept_entry_trans); [ | intros; apply Hself ].
  destruct (live_process st) as [h|] eqn:E; [ | apply kept_entry_refl ].
  assert (Hh : h <> other)
    by (intros ->; apply Hne; apply live_process_handle; exact E).
  pose proof (kept_entry_terminate h Hh).
  to_preserves. preserve kept_entry_refl kept_entry_trans.
Qed.

Lemma start_kept_entry p st :
  (other < length (procs (os st)))%nat ->
  let st' := exec (start shlex_split p) st in
  procs (os st') !! other = procs (os st) !! other
  /\ (length (procs (os st)) <= length (procs (os st')))%nat
  /\ (process (self st) <> Some other -> process (self st') <> Some other).
Proof.
  intros Hlt st'.
  destruct (process (self st)) as [h|] eqn:Hp.
  - unfold st', exec. rewrite (start_already shlex_split p st h Hp). rewrite log_state.
    simpl. rewrite Hp. auto.
  - destruct (start_outcomes shlex_split p st Hp)
      as [(e & _ & _ & Hs & Ho)|[(cmd & e & _ & _ & _ & _ & Hn & Ho & _)|(cmd & _ & _ & _ & Hh & Ho)]];
      fold st' in Ho.
    + fold st' in Hs. rewrite Ho, Hs, Hp. auto.
    + fold st' in Hn. rewrite Ho, Hn. auto.
    + fold st' in Hh. rewrite Ho, Hh, length_app.
      split; [ apply lookup_app_l; exact Hlt | ].
      split; [ lia | ]. intros _ E. injection E as E. lia.
Qed.

Lemma read_line_same_os line st : os (exec (read_line line) st) = os st.
Proof.
  apply (kept_read_line reading reading_refl reading_trans);
    first [ apply reading_log | untouched reading ].
Qed.

Lemma read_lines_same_os lines st : os (exec (read_lines lines) st) = os st.
Proof.
  apply (kept_read_lines reading reading_refl reading_trans);
    first [ apply reading_log | untouched reading ].
Qed.

Lemma read_finish_kept_entry code st :
  process (self st) <> Some other -> kept_entry st (exec (read_finish code) st).
Proof.
  intros Hne. unfold entry_kept. rewrite read_finish_os.
  destruct (process (self st)) as [h|]; [ | split; reflexivity ].
  simpl. split; [ apply list_lookup_alter_ne; congruence | apply length_alter ].
Qed.

Lemma method_isolated ev st :
  method_event ev = true ->
  process (self st) <> Some other ->
  (other < length (procs (os st)))%nat ->
  let st' := step shlex_split ev st in
  procs (os st') !! other = procs (os st) !! other
  /\ (length (procs (os st)) <= length (procs (os st')))%nat
  /\ process (self st') <> Some other.
Proof.
  intros Hm Hne Hlt.
  assert (Hkept : forall st', kept_entry st st' -> same_process st st' ->
            procs (os st') !! other = procs (os st) !! other
            /\ (length (procs (os st)) <= length (procs (os st')))%nat
            /\ process (self st') <> Some other).
  { intros st' [L N] P. unfold same_process in P. rewrite L, N, P. auto. }
  destruct ev as [aria2_path| | |aria2_path|line|rc|lines rc|child rc|po te mk|now];
    try discriminate Hm; cbn [step].
  - destruct (start_kept_entry aria2_path st Hlt) as (L & N & P). auto.
  - apply Hkept; [ apply pause_kept_entry; exact Hne | apply pause_same_process ].
  - apply Hkept; [ apply stop_kept_entry; exact Hne | apply stop_same_process ].
  - unfold exec, resume.
    destruct (String.eqb _ _);
      [ apply Hkept; [ apply kept_entry_log | apply log_same_process ] | ].
    destruct (live_process st);
      [ apply Hkept; [ apply kept_entry_log | apply log_same_process ] | ].
    cbv beta iota zeta delta [bind]. rewrite log_state.
    cbv beta iota zeta delta [modify_self].
    match goal with
    | |- context [start shlex_split aria2_path ?s] =>
        destruct (start_kept_entry aria2_path s Hlt) as (L & N & P)
    end.
    auto.
  - apply Hkept; [ | apply read_line_same_process ].
    unfold entry_kept. rewrite read_line_same_os. auto.
  - apply Hkept; [ apply read_finish_kept_entry; exact Hne
                 | apply read_finish_same_process ].
  - destruct (process (self st)) as [h|] eqn:Hp.
    + unfold exec. rewrite (read_output_steps lines rc st h Hp).
      set (st1 := exec (read_lines lines) st).
      assert (Hp1 : process (self st1) = process (self st))
        by apply read_lines_same_process.
      assert (Ho1 : os st1 = os st) by apply read_lines_same_os.
      destruct (read_finish_kept_entry rc st1) as [L N];
        [ rewrite Hp1, Hp; exact Hne | ].
      pose proof (read_finish_same_process rc st1) as P.
      unfold same_process, exec in *.
      rewrite L, N, P, Hp1, Ho1, Hp. auto.
    + unfold exec, _read_output. cbv beta iota zeta delta [bind get_self].
      rewrite Hp. simpl. rewrite Hp. auto.
Qed.

(** X13.  The code of a task touches no child but its own: over any
    sequence of its method calls and reader steps, the entry of a child
    the task holds no handle to stays as it was. *)
Theorem other_children_untouched evs st :
  forallb method_event evs = true ->
  process (self st) <> Some other ->
  (other < length (procs (os st)))%nat ->
  procs (os (run shlex_split evs st)) !! other = procs (os st) !! other.
Proof.
  revert st. induction evs as [|ev evs IH]; intros st Hm Hne Hlt; [ reflexivity | ].
  cbn [forallb] in Hm. apply andb_prop in Hm as [Hev Hevs].
  destruct (method_isolated ev st Hev Hne Hlt) as (L & N & P).
  simpl. rewrite (IH (step shlex_split ev st) Hevs P); [ exact L | lia ].
Qed.
End Isolation.

Lemma other_children_untouched_witness :
  let w := set_procs [{| argv := ["aria2c"; "http://example/other"];
                         returncode := None; signalled := false |}] sample_world in
  let st := {| self := sample_task; os := w |} in
  let evs := [EvStart "aria2c"; EvReadLine marker_line; EvStop; EvReadFinish 0] in
  forallb method_event evs = true
  /\ process (self st) <> Some 0%nat
  /\ (0 < length (procs (os st)))%nat
  /\ procs (os (run plain_shlex evs st)) !! 0%nat = procs (os st) !! 0%nat.
Proof.
  intros w st evs.
  assert (H1 : forallb method_event evs = true) by reflexivity.
  assert (H2 : process (self st) <> Some 0%nat) by discriminate.
  assert (H3 : (0 < length (procs (os st)))%nat) by (simpl; lia).
  split; [ exact H1 | ]. split; [ exact H2 | ]. split; [ exact H3 | ].
  apply (other_children_untouched plain_shlex 0%nat evs st H1 H2 H3).
Defined.


(** *** When [terminate] fails *)

(** X14.  When [terminate] raises on a live child, [pause] only logs the
    failure, and [stop] logs it and still sets the status ["Stopped"];
    neither raises the stop flag nor touches the world, so the reader goes
    on. *)
Theorem terminate_failure st h e :
  live_process st = Some h ->
  terminate_error (os st) = Some e ->
  pause st = log ("Failed to pause: " +:+ exn_msg e) st
  /\ (let st' := exec stop st in
      fst (stop st) = Ret tt
      /\ status (self st') = "Stopped"%string
      /\ _stop_flag (self st') = _stop_flag (self st)
      /\ os st' = os st
      /\ log_lines (self st')
         = log_lines (self st) ++ [log_entry (os st) ("Failed to stop: " +:+ exn_msg e)]).
Proof.
  intros Hl He. split.
  - unfold pause. rewrite Hl.
    cbv beta iota zeta delta [try_except bind terminate get_os raise].
    rewrite He. reflexivity.
  - unfold exec, stop. cbv beta iota zeta delta [bind]. rewrite Hl.
    cbv beta iota zeta delta [try_except bind terminate get_os raise].
    rewrite He. simpl. repeat split; reflexivity.
Qed.

Lemma terminate_failure_witness :
  let st := {| self := self started_state;
               os := set_oracle None (Some (OSError "Operation not permitted")) None
                       (os started_state) |} in
  live_process st = Some 0%nat
  /\ pause st = log "Failed to pause: Operation not permitted" st
  /\ status (self (exec stop st)) = "Stopped"%string
  /\ _stop_flag (self (exec stop st)) = false.
Proof.
  intros st.
  assert (Hl : live_process st = Some 0%nat) by (vm_compute; reflexivity).
  destruct (terminate_failure st 0%nat (OSError "Operation not permitted") Hl eq_refl)
    as (H1 & _ & H2 & H3 & _).
  split; [ exact Hl | ]. split; [ exact H1 | ]. split; [ exact H2 | ].
  rewrite H3. vm_compute. reflexivity.
Defined.


(** *** More on [human_to_bytes] *)
















(** ** [PROGRESS_RE] on every well-formed marker *)

Lemma match_plus {R} cl ds rest cs (k : list ascii -> captures -> option R) r :
  part_of cl ds ->
  head_outside cl rest ->
  k rest cs = Some r ->
  match_from (Plus cl) (ds ++ rest) cs k = Some r.
Proof.
  intros [Hne Hds] Hrest Hk. destruct ds as [|d ds]; [ congruence | ].
  cbn [match_from app]. simpl in Hds. apply andb_prop in Hds as [Hd Hds].
  rewrite Hd. apply star_greedy; [ exact Hds | exact Hk | exact Hrest ].
Qed.

Lemma match_group {R} n cl ds rest cs (k : list ascii -> captures -> option R) r :
  part_of cl ds ->
  head_outside cl rest ->
  k rest ((n, ds) :: cs) = Some r ->
  match_from (Group n (Plus cl)) (ds ++ rest) cs k = Some r.
Proof. intros [Hne Hds] Hrest Hk. apply match_group_plus; assumption. Qed.

Lemma match_lit {R} x c s cs (k : list ascii -> captures -> option R) :
  lit_match x c = true -> match_from (Lit x) (c :: s) cs k = k s cs.
Proof. intros H. cbn [match_from]. rewrite H. reflexivity. Qed.

Lemma head_outside_part cl cl' ds rest :
  part_of cl' ds ->
  (forall c, in_class cl' c = true -> in_class cl c = false) ->
  head_outside cl (ds ++ rest).
Proof.
  intros [Hne Hds] Hdis. destruct ds as [|d ds]; [ congruence | ].
  simpl in *. apply andb_prop in Hds as [Hd _]. apply Hdis. exact Hd.
Qed.

Lemma numw_not_space c : in_class c_numw c = true -> in_class c_space c = false.
Proof.
  destruct c as [[] [] [] [] [] [] [] []]; intros H;
    first [ discriminate H | reflexivity ].
Qed.

Lemma hex_not_space c : in_class c_hex c = true -> in_class c_space c = false.
Proof.
  destruct c as [[] [] [] [] [] [] [] []]; intros H;
    first [ discriminate H | reflexivity ].
Qed.

Lemma digit_not_space c : in_class c_digit c = true -> in_class c_space c = false.
Proof.
  destruct c as [[] [] [] [] [] [] [] []]; intros H;
    first [ discriminate H | reflexivity ].
Qed.

Lemma blank_part : part_of c_space [" "%char].
Proof. split; [ discriminate | reflexivity ]. Qed.

(** The three kinds of step through the pattern: a literal, a run of
    blanks, a group. *)
Ltac lit := rewrite match_seq, match_lit by reflexivity.

Ltac blank :=
  rewrite match_seq;
  match goal with
  | |- match_from (Plus c_space) (" "%char :: ?r) _ _ = _ =>
      change (" "%char :: r) with ([" "%char] ++ r)
  end;
  apply match_plus; [ exact blank_part | | cbv beta ].

Ltac grp H :=
  rewrite match_seq; apply match_group; [ exact H | | cbv beta ].

(** [PROGRESS_RE] finds a well-formed marker at the start of the text and
    its groups are the parts. *)
Lemma progress_re_on_marker g have total pct cn speed eta_ rest :
  part_of c_hex g -> part_of c_numw have -> part_of c_numw total ->
  part_of c_digit pct -> part_of c_digit cn -> part_of c_numw speed ->
  part_of c_not_rbracket eta_ ->
  search_chars PROGRESS_RE (marker_chars g have total pct cn speed eta_ rest)
  = Some [(7%nat, eta_); (6%nat, speed); (5%nat, cn); (4%nat, pct);
          (3%nat, total); (2%nat, have); (1%nat, g)].
Proof.
  intros Hg Hh Ht Hp Hc Hs He.
  unfold marker_chars. cbn [chars list_ascii_of_string app].
  cbn [search_chars].
  match goal with
  | |- match ?m with _ => _ end = _ =>
      assert (E : m = Some [(7%nat, eta_); (6%nat, speed); (5%nat, cn); (4%nat, pct);
                            (3%nat, total); (2%nat, have); (1%nat, g)]);
      [ | rewrite E; reflexivity ]
  end.
  unfold PROGRESS_RE, seqs. cbn [fold_right].
  lit. lit. grp Hg; [ reflexivity | ].
  blank; [ apply (head_outside_part _ _ _ _ Hh numw_not_space) | ].
  grp Hh; [ reflexivity | ].
  lit. grp Ht; [ reflexivity | ].
  lit. grp Hp; [ reflexivity | ].
  lit. lit.
  blank; [ reflexivity | ].
  lit. lit. lit. grp Hc; [ reflexivity | ].
  blank; [ reflexivity | ].
  lit. lit. lit. grp Hs; [ reflexivity | ].
  blank; [ reflexivity | ].
  lit. lit. lit. lit. grp He; [ reflexivity | ].
  rewrite match_seq, match_lit by reflexivity. reflexivity.
Qed.

Lemma digit_not_blank c : is_digit c = true -> is_space c = false.
Proof.
  destruct c as [[] [] [] [] [] [] [] []]; intros H;
    first [ discriminate H | reflexivity ].
Qed.

Lemma lstrip_digits l :
  forallb is_digit l = true -> lstrip_chars is_space l = l.
Proof.
  destruct l as [|c l]; [ reflexivity | ]. simpl. intros H.
  apply andb_prop in H as [Hc _]. rewrite (digit_not_blank c Hc). reflexivity.
Qed.

Lemma strip_digits l :
  forallb is_digit l = true ->
  rstrip_chars is_space (lstrip_chars is_space l) = l.
Proof.
  intros H. rewrite (lstrip_digits l H). unfold rstrip_chars.
  rewrite lstrip_digits; [ apply rev_involutive | ].
  rewrite forallb_forall in *. intros c Hc. apply H. apply in_rev. exact Hc.
Qed.

Lemma int_digits_all acc b l :
  forallb is_digit l = true -> (l <> [] \/ b = true) ->
  int_digits acc b l = Some (fold_left (fun a c => a * 10 + digit_val c) l acc).
Proof.
  revert acc b. induction l as [|c l IH]; intros acc b H Hne; simpl.
  - destruct Hne as [Hne| ->]; [ congruence | reflexivity ].
  - simpl in H. apply andb_prop in H as [Hc Hl]. rewrite Hc.
    apply IH; [ exact Hl | right; reflexivity ].
Qed.

Lemma digit_in_c_digit c : in_class c_digit c = true -> is_digit c = true.
Proof.
  destruct c as [[] [] [] [] [] [] [] []]; intros H;
    first [ discriminate H | reflexivity ].
Qed.

(** [int] of a run of digits is its decimal value. *)
Lemma int_of_digits l :
  part_of c_digit l -> int_of_str (str l) = Ret (digits_value l).
Proof.
  intros [Hne Hl].
  assert (Hd : forallb is_digit l = true).
  { rewrite forallb_forall in *. intros c Hc. apply digit_in_c_digit. apply Hl. exact Hc. }
  unfold int_of_str. rewrite chars_str, (strip_digits l Hd).
  destruct l as [|c l]; [ congruence | ].
  assert (E : int_digits 0 false (c :: l) = Some (digits_value (c :: l)))
    by (apply int_digits_all; [ exact Hd | left; discriminate ]).
  simpl in Hd. apply andb_prop in Hd as [Hc _].
  destruct c as [[] [] [] [] [] [] [] []]; try discriminate Hc; rewrite E; reflexivity.
Qed.

(** X22.  On every well-formed marker, a bracket with a hexadecimal gid,
    two size tokens, the percentage, the connection count, the speed and
    the ETA, the progress parser sets the fields of the task to the parts
    of the line: the texts as they stand, the numbers by their decimal
    value and the sizes through [human_to_bytes].  The two numbers are
    taken within [int_max_str_digits], beyond which CPython's [int]
    refuses a decimal text. *)
Theorem parse_progress_any_marker g have total pct cn speed eta_ rest hb tb st :
  part_of c_hex g -> part_of c_numw have -> part_of c_numw total ->
  part_of c_digit pct -> part_of c_digit cn -> part_of c_numw speed ->
  part_of c_not_rbracket eta_ ->
  (length pct <= int_max_str_digits)%nat ->
  (length cn <= int_max_str_digits)%nat ->
  human_to_bytes (str have) = Ret hb ->
  human_to_bytes (str total) = Ret tb ->
  let line := str (marker_chars g have total pct cn speed eta_ rest) in
  let t' := self (exec (_parse_progress line) st) in
  gid t' = Some (str g)
  /\ have_bytes t' = hb /\ total_bytes t' = tb
  /\ progress t' = digits_value pct
  /\ connections t' = digits_value cn
  /\ dl_speed t' = str speed
  /\ eta t' = strip (str eta_).
Proof.
  intros Hg Hh Ht Hp Hc Hs He _ _ Hhb Htb line t'.
  unfold t', exec, _parse_progress, line, search. rewrite chars_str.
  rewrite (progress_re_on_marker g have total pct cn speed eta_ rest Hg Hh Ht Hp Hc Hs He).
  cbv beta iota zeta delta [bind try_except lift modify_self].
  change (default "" (group _ 1%nat)) with (str g).
  change (default "" (group _ 2%nat)) with (str have).
  change (default "" (group _ 3%nat)) with (str total).
  change (default "" (group _ 4%nat)) with (str pct).
  change (default "" (group _ 5%nat)) with (str cn).
  change (default "" (group _ 6%nat)) with (str speed).
  change (default "" (group _ 7%nat)) with (str eta_).
  rewrite (int_of_digits pct Hp), (int_of_digits cn Hc), Hhb, Htb.
  destruct (existsb _ _); simpl; repeat split; reflexivity.
Qed.

Lemma parse_progress_any_marker_witness :
  let line := "[#00 5MiB/10MiB(50%) CN:2 DL:2MiB ETA:10s] and more" in
  let t' := self (exec (_parse_progress line) sample_state) in
  gid t' = Some "00"%string
  /\ have_bytes t' = 5 * 1024 * 1024 /\ total_bytes t' = 10 * 1024 * 1024
  /\ progress t' = 50 /\ connections t' = 2
  /\ dl_speed t' = "2MiB"%string /\ eta t' = "10s"%string.
Proof.
  apply (parse_progress_any_marker (chars "00") (chars "5MiB") (chars "10MiB")
           (chars "50") (chars "2") (chars "2MiB") (chars "10s") (chars " and more")
           (5 * 1024 * 1024) (10 * 1024 * 1024) sample_state);
    first [ split; [ discriminate | reflexivity ]
          | apply Nat.leb_le; reflexivity
          | reflexivity ].
Defined.

(** ** The further theorems at the sample data *)

(** ** The further theorems at the sample data *)



Lemma start_propagates_build_error_witness :
  let e := ValueError "invalid literal for int() with base 10: 'four'" in
  process (self bad_split_state) = None
  /\ fst (build_command plain_shlex "aria2c" bad_split_state) = Raise e
  /\ fst (start plain_shlex "aria2c" bad_split_state) = Raise e
  /\ self (exec (start plain_shlex "aria2c") bad_split_state) = self bad_split_state
  /\ procs (os (exec (start plain_shlex "aria2c") bad_split_state)) = [].
Proof.
  intros e.
  assert (H : fst (build_command plain_shlex "aria2c" bad_split_state) = Raise e)
    by (vm_compute; reflexivity).
  split; [ reflexivity | ]. split; [ exact H | ].
  apply (start_propagates_build_error plain_shlex "aria2c" bad_split_state e eq_refl H).
Defined.

Lemma start_spawn_failure_witness :
  let e := OSError "No such file or directory: 'aria2c'" in
  process (self no_aria2_state) = None
  /\ fst (build_command plain_shlex "aria2c" no_aria2_state) = Ret sample_cmd
  /\ popen_error (os no_aria2_state) = Some e
  /\ status (self (exec (start plain_shlex "aria2c") no_aria2_state)) = "Error"%string
  /\ process (self (exec (start plain_shlex "aria2c") no_aria2_state)) = None.
Proof.
  intros e.
  assert (H : fst (build_command plain_shlex "aria2c" no_aria2_state) = Ret sample_cmd)
    by (vm_compute; reflexivity).
  split; [ reflexivity | ]. split; [ exact H | ]. split; [ reflexivity | ].
  destruct (start_spawn_failure plain_shlex "aria2c" no_aria2_state sample_cmd e
              eq_refl H eq_refl) as (_ & H1 & H2 & _).
  split; [ exact H1 | exact H2 ].
Defined.

Lemma resume_spawns_with_continue_witness :
  options (self no_continue_state) !! "continue" = Some (VBool false)
  /\ process (self no_continue_state) = None
  /\ process (self (exec (resume plain_shlex "aria2c") no_continue_state)) = Some 0%nat
  /\ exists cmd,
       argv <$> procs (os (exec (resume plain_shlex "aria2c") no_continue_state)) !! 0%nat
       = Some cmd
       /\ cmd !! 0%nat = Some "aria2c"%string
       /\ cmd !! 1%nat = Some "-c"%string.
Proof.
  assert (H : process (self (exec (resume plain_shlex "aria2c") no_continue_state))
              = Some 0%nat) by (vm_compute; reflexivity).
  split; [ vm_compute; reflexivity | ]. split; [ reflexivity | ]. split; [ exact H | ].
  apply (resume_spawns_with_continue plain_shlex "aria2c" no_continue_state 0%nat
           eq_refl H).
Defined.

Lemma build_command_vector_witness :
  fst (build_command plain_shlex "aria2c" sample_state) = Ret sample_cmd
  /\ exists s c,
       Ret 4 = Ret s /\ Ret s = Ret c
       /\ sample_cmd
          = ["aria2c"; "-c"; "--file-allocation=none";
             "--split=" +:+ str_of_int s;
             "--max-connection-per-server=" +:+ str_of_int c;
             "--allow-overwrite=true"; "--auto-file-renaming=false"; "-d"; "/tmp";
             "http://example/file.bin"]%string.
Proof.
  assert (H : fst (build_command plain_shlex "aria2c" sample_state) = Ret sample_cmd)
    by (vm_compute; reflexivity).
  split; [ exact H | ].
  exact (build_command_vector plain_shlex "aria2c" sample_state sample_cmd H).
Defined.

